(** * Finance dashboard: the client-side logic of the React front end

    A shallow embedding of the pure and stateful logic of

      - [src/frontend/src/components/AccountIndicator.jsx]
        (components [AccountIndicator] and [TransactionList]),
      - [src/frontend/src/components/BalanceChart.jsx],
      - [src/frontend/src/pages/Dashboard.jsx],

    followed by the properties the specification states about them and
    by further properties read off the code.

    Conventions.  A JavaScript number that holds a balance is a rational
    [Q] where the code only compares it (every finite double is one, and
    comparisons are exact on them); where the code computes with it
    ([getProgressValue]) the arithmetic is given twice, exactly on [Q] and
    as the program runs it, on IEEE 754 binary64 numbers
    ([AccountIndicator.Double]); identifiers and time values are integers
    [Z]; a
    plain object used as a record of optional fields is a [gmap]; an object
    whose key order is observed ([Object.keys], [Object.entries]) is an
    association list in insertion order; a component's state is a record
    and an event handler is a function from state to state together with
    the effects it performed. *)

From Stdlib Require Import ZArith QArith Qminmax Qabs Lia Lqa List Ascii String.
From Stdlib Require Import DecimalString DecimalPos Sorted SpecFloat.
From stdpp Require Import base option list gmap strings.

Open Scope Z_scope.

(** ** JavaScript values and the host environment *)

(** The values a filter field or a selected account can hold: [undefined],
    a number (an integer here) or a string. *)
Inductive JsVal := VUndefined | VNum (n : Z) | VStr (s : string).

(** ToBoolean: [undefined], [0] and the empty string are falsy. *)
Definition truthy (v : JsVal) : bool :=
  match v with
  | VUndefined => false
  | VNum n => negb (n =? 0)
  | VStr s => negb (String.eqb s "")
  end.

(** Number::toString on an integer, in full decimal digits.  ECMAScript
    prints a number in the fewest digits that read back as the same
    double, padded with zeros, and in the exponent form ([1e+21]) from
    [10^21] on; these are the full decimal digits for the integers every
    one of which is a double, those of absolute value below [2^53]
    ([Number.isSafeInteger]).  So [Z_to_string n] is the print of [n]
    for [isSafeInteger n]; a property that depends on the print of an
    arbitrary number assumes it. *)
Definition Z_to_string (n : Z) : string := NilZero.string_of_int (Z.to_int n).

Definition isSafeInteger (n : Z) : Prop := Z.abs n < 2 ^ 53.

(** ToString, as performed by template literals and [URLSearchParams]; on
    a number, see [Z_to_string]. *)
Definition toString (v : JsVal) : string :=
  match v with
  | VUndefined => "undefined"
  | VNum n => Z_to_string n
  | VStr s => s
  end.

(** Reading a property of a plain object: an absent key reads
    [undefined]. *)
Definition get (o : gmap string JsVal) (k : string) : JsVal :=
  default VUndefined (o !! k).

(** Object spread [{...a, ...b}]: the properties of [a], overwritten by
    those of [b]. *)
Definition spread (a b : gmap string JsVal) : gmap string JsVal := b ∪ a.

(** ** [parseInt]

    Strings are sequences of UTF-8 bytes, so the white space [parseInt]
    skips is recognised by its one-, two- and three-byte encodings. *)

Module ParseInt.

Definition byte (c : ascii) : Z := Z.of_N (N_of_ascii c).

(** TAB, LF, VT, FF, CR and the space. *)
Definition whiteSpace1 (c : ascii) : bool :=
  ((9 <=? byte c) && (byte c <=? 13)) || (byte c =? 32).

(** U+00A0. *)
Definition whiteSpace2 (c1 c2 : ascii) : bool :=
  (byte c1 =? 194) && (byte c2 =? 160).

(** U+1680, U+2000 to U+200A, U+2028, U+2029, U+202F, U+205F, U+3000 and
    U+FEFF. *)
Definition whiteSpace3 (c1 c2 c3 : ascii) : bool :=
  ((byte c1 =? 225) && (byte c2 =? 154) && (byte c3 =? 128))
  || ((byte c1 =? 226) && (byte c2 =? 128)
      && (((128 <=? byte c3) && (byte c3 <=? 138))
          || (byte c3 =? 168) || (byte c3 =? 169) || (byte c3 =? 175)))
  || ((byte c1 =? 226) && (byte c2 =? 129) && (byte c3 =? 159))
  || ((byte c1 =? 227) && (byte c2 =? 128) && (byte c3 =? 128))
  || ((byte c1 =? 239) && (byte c2 =? 187) && (byte c3 =? 191)).

Fixpoint trimStart (s : string) : string :=
  match s with
  | String c1 s1 =>
      if whiteSpace1 c1 then trimStart s1
      else
        match s1 with
        | String c2 s2 =>
            if whiteSpace2 c1 c2 then trimStart s2
            else
              match s2 with
              | String c3 s3 =>
                  if whiteSpace3 c1 c2 c3 then trimStart s3 else s
              | EmptyString => s
              end
        | EmptyString => s
        end
  | EmptyString => s
  end.

(** The value of a digit of the radix, if the character is one. *)
Definition digitValue (radix : Z) (c : ascii) : option Z :=
  let n := byte c in
  let v := if (48 <=? n) && (n <=? 57) then n - 48
           else if (97 <=? n) && (n <=? 122) then n - 87
           else if (65 <=? n) && (n <=? 90) then n - 55
           else radix in
  if v <? radix then Some v else None.

(** The number the longest prefix of digits denotes; [acc] is [None]
    until a digit has been read. *)
Fixpoint digitsPrefix (radix : Z) (s : string) (acc : option Z) : option Z :=
  match s with
  | String c s' =>
      match digitValue radix c with
      | Some d => digitsPrefix radix s' (Some (radix * default 0 acc + d))
      | None => acc
      end
  | EmptyString => acc
  end.

Definition parseIntString (inputString : string) : option Z :=
  let s := trimStart inputString in
  let '(sign, s) :=
    match s with
    | String c s' =>
        if Ascii.eqb c "-" then (-1, s')
        else if Ascii.eqb c "+" then (1, s')
        else (1, s)
    | EmptyString => (1, s)
    end in
  let '(radix, s) :=
    match s with
    | String c1 (String c2 s') =>
        if Ascii.eqb c1 "0" && (Ascii.eqb c2 "x" || Ascii.eqb c2 "X")
        then (16, s')
        else (10, s)
    | _ => (10, s)
    end in
  d ← digitsPrefix radix s None; Some (sign * d).

End ParseInt.

(** [parseInt(v)], without a radix: the argument is converted to a string
    first; [None] is [NaN]. *)
Definition parseInt (v : JsVal) : option Z :=
  ParseInt.parseIntString (toString v).

(** An abrupt completion: the only exception this code can raise is the
    [RangeError] of date-fns' [format] on an invalid date. *)
Inductive Exception := RangeError (msg : string).

Inductive completion (A : Type) : Type :=
| Return (v : A)
| Throw (e : Exception).
Arguments Return {A} v.
Arguments Throw {A} e.

#[export] Instance completion_ret : MRet completion := @Return.

#[export] Instance completion_bind : MBind completion := fun A B k c =>
  match c with
  | Return v => k v
  | Throw e => Throw e
  end.

(** [Array.prototype.forEach] with a body that updates an accumulator (the
    object the callback mutates) and may throw. *)
Fixpoint forEach {A S} (body : S -> A -> completion S) (l : list A) (s : S)
  : completion S :=
  match l with
  | [] => Return s
  | x :: l' => s' ← body s x; forEach body l' s'
  end.

(** What the program takes from its host: the local time zone adjustment
    in milliseconds at a UTC instant (ECMAScript's LocalTZA), and
    [Date.parse], whose [NaN] is [None]. *)
Class Host := {
  LocalTZA : Z -> Z;
  Date_parse : string -> option Z
}.

(** ** Dates *)

Module JsDate.

Definition msPerDay : Z := 86400000.

(** ECMAScript's [Day(t)]. *)
Definition Day (t : Z) : Z := t / msPerDay.

(** Day number (days since 1970-01-01) of a date of the proleptic
    Gregorian calendar, and back. *)
Definition days_from_civil (y m d : Z) : Z :=
  let y' := if m <=? 2 then y - 1 else y in
  let era := y' / 400 in
  let yoe := y' - era * 400 in
  let mp := (m + 9) mod 12 in
  let doy := (153 * mp + 2) / 5 + d - 1 in
  let doe := yoe * 365 + yoe / 4 - yoe / 100 + doy in
  era * 146097 + doe - 719468.

Definition civil_from_days (z : Z) : Z * Z * Z :=
  let z := z + 719468 in
  let era := z / 146097 in
  let doe := z - era * 146097 in
  let yoe := (doe - doe / 1460 + doe / 36524 - doe / 146096) / 365 in
  let y := yoe + era * 400 in
  let doy := doe - (365 * yoe + yoe / 4 - yoe / 100) in
  let mp := (5 * doy + 2) / 153 in
  let d := doy - (153 * mp + 2) / 5 + 1 in
  let m := if mp <? 10 then mp + 3 else mp - 9 in
  (if m <=? 2 then y + 1 else y, m, d).

Definition YearFromTime (t : Z) : Z := fst (fst (civil_from_days (Day t))).
(** Zero-based, as [getMonth] returns it. *)
Definition MonthFromTime (t : Z) : Z := snd (fst (civil_from_days (Day t))) - 1.
Definition DateFromTime (t : Z) : Z := snd (civil_from_days (Day t)).

Definition isLeap (y : Z) : bool :=
  ((y mod 4 =? 0) && negb (y mod 100 =? 0)) || (y mod 400 =? 0).

Definition DaysInMonth (y m : Z) : Z :=
  if m =? 2 then (if isLeap y then 29 else 28)
  else if (m =? 4) || (m =? 6) || (m =? 9) || (m =? 11) then 30
  else 31.

Definition digit (c : ascii) : option Z :=
  let n := Z.of_N (N_of_ascii c) in
  if (48 <=? n) && (n <=? 57) then Some (n - 48) else None.

Fixpoint number (cs : list ascii) (acc : Z) : option Z :=
  match cs with
  | [] => Some acc
  | c :: cs' =>
      match digit c with
      | Some d => number cs' (10 * acc + d)
      | None => None
      end
  end.

(** ECMAScript's date-time string format, date-only form [YYYY-MM-DD]: the
    time value is that of midnight UTC of that day; a field out of range
    gives [NaN].  The other forms are left to the host. *)
Definition parseIsoDate (s : string) : option Z :=
  match list_ascii_of_string s with
  | [y1; y2; y3; y4; s1; m1; m2; s2; d1; d2] =>
      if Ascii.eqb s1 "-" && Ascii.eqb s2 "-" then
        match number [y1; y2; y3; y4] 0, number [m1; m2] 0, number [d1; d2] 0 with
        | Some y, Some m, Some d =>
            if (1 <=? m) && (m <=? 12) && (1 <=? d) && (d <=? DaysInMonth y m)
            then Some (days_from_civil y m d * msPerDay)
            else None
        | _, _, _ => None
        end
      else None
  | _ => None
  end.

Section WithHost.
Context {host : Host}.

(** A [Date] object is its time value, [None] for an invalid date. *)
Definition newDate (dateString : string) : option Z := Date_parse dateString.

Definition LocalTime (t : Z) : Z := t + LocalTZA t.
Definition getFullYear (t : Z) : Z := YearFromTime (LocalTime t).
Definition getMonth (t : Z) : Z := MonthFromTime (LocalTime t).
Definition getDate (t : Z) : Z := DateFromTime (LocalTime t).

End WithHost.

(** date-fns' [addLeadingZeros], on a natural number. *)
Definition addLeadingZeros (n : Z) (targetLength : nat) : string :=
  let digits := Z_to_string (Z.abs n) in
  let zeros := string_of_list_ascii
                 (repeat "0"%char (targetLength - String.length digits)) in
  (if n <? 0 then "-" else "") +:+ zeros +:+ digits.

(** The month names of date-fns' [ptBR] locale (pattern [MMMM]). *)
Definition ptBR_month (m : Z) : string :=
  nth (Z.to_nat m)
    ["janeiro"; "fevereiro"; "março"; "abril"; "maio"; "junho"; "julho";
     "agosto"; "setembro"; "outubro"; "novembro"; "dezembro"] "".

(** The year a pattern [yyyy] prints: the year of the era. *)
Definition yearOfEra (signedYear : Z) : Z :=
  if 0 <? signedYear then signedYear else 1 - signedYear.

Section WithHost.
Context {host : Host}.

(** date-fns' [format(date, 'MMMM yyyy', { locale: ptBR })]: it throws a
    [RangeError] on an invalid date and otherwise prints the fields of the
    local time. *)
Definition format_MMMM_yyyy (date : option Z) : completion string :=
  match date with
  | None => Throw (RangeError "Invalid time value")
  | Some t =>
      Return (ptBR_month (getMonth t) +:+ " "
              +:+ addLeadingZeros (yearOfEra (getFullYear t)) 4)
  end.

(** [date.toLocaleDateString('pt-BR')]: day/month/year of the local time
    (for the years of the common era, which is all the program meets), and
    the string ["Invalid Date"] for an invalid date. *)
Definition toLocaleDateString_ptBR (date : option Z) : string :=
  match date with
  | None => "Invalid Date"
  | Some t =>
      addLeadingZeros (getDate t) 2 +:+ "/"
      +:+ addLeadingZeros (getMonth t + 1) 2 +:+ "/"
      +:+ Z_to_string (yearOfEra (getFullYear t))
  end.

(** date-fns' [format(date, 'dd/MM/yyyy', { locale: ptBR })]. *)
Definition format_dd_MM_yyyy (date : option Z) : completion string :=
  match date with
  | None => Throw (RangeError "Invalid time value")
  | Some t =>
      Return (addLeadingZeros (getDate t) 2 +:+ "/"
              +:+ addLeadingZeros (getMonth t + 1) 2 +:+ "/"
              +:+ addLeadingZeros (yearOfEra (getFullYear t)) 4)
  end.

End WithHost.

(** The day number again, from a year that starts in March: [mp] counts
    the months from March ([0]) to February ([11]). *)
Definition monthStart (mp : Z) : Z := (153 * mp + 2) / 5.

Definition days_from_march (y' mp d : Z) : Z :=
  let era := y' / 400 in
  let yoe := y' - era * 400 in
  let doy := monthStart mp + d - 1 in
  let doe := yoe * 365 + yoe / 4 - yoe / 100 + doy in
  era * 146097 + doe - 719468.

(** The date-only string [YYYY-MM-DD] of a date. *)
Definition isoDate (y m d : Z) : string :=
  addLeadingZeros y 4 +:+ "-" +:+ addLeadingZeros m 2 +:+ "-"
  +:+ addLeadingZeros d 2.

(** A number printed on two or four digits reads back as itself; the
    test, and its run over the numbers from [n] on. *)
Definition readsBack (width : nat) (n : Z) : bool :=
  match number (list_ascii_of_string (addLeadingZeros n width)) 0 with
  | Some v => (v =? n) && (String.length (addLeadingZeros n width) =? width)%nat
  | None => false
  end.

Fixpoint allFrom (count : nat) (n : Z) (test : Z -> bool) : bool :=
  match count with
  | O => true
  | S count' => test n && allFrom count' (n + 1) test
  end.

(** How [dd/MM/yyyy] and [MMMM yyyy] print a date of the common era, and
    the day before a date. *)
Definition ddMMyyyy (date : Z * Z * Z) : string :=
  let '(y, m, d) := date in
  addLeadingZeros d 2 +:+ "/" +:+ addLeadingZeros m 2 +:+ "/"
  +:+ addLeadingZeros y 4.

Definition monthYear (date : Z * Z * Z) : string :=
  let '(y, m, d) := date in
  ptBR_month (m - 1) +:+ " " +:+ addLeadingZeros y 4.

Definition previousDay (date : Z * Z * Z) : Z * Z * Z :=
  let '(y, m, d) := date in
  if 2 <=? d then (y, m, d - 1)
  else if 2 <=? m then (y, m - 1, DaysInMonth y (m - 1))
  else (y - 1, 12, 31).

(** A date of the calendar, in the years the date-only form can write
    and [yyyy] prints as they are. *)
Definition calendarDate (y m d : Z) : Prop :=
  1 <= y <= 9999 /\ 1 <= m <= 12 /\ 1 <= d <= DaysInMonth y m.

End JsDate.

(** Two hosts for the examples: one whose local time is UTC, one on
    Brasília time (UTC-3).  Their [Date_parse] reads the date-only form
    [YYYY-MM-DD] as ECMAScript prescribes (midnight UTC of that day) and
    nothing else: a string in any other form, which a browser may or may
    not accept, is invalid here.  The examples give them date-only
    strings, or a string no browser parses. *)
Definition utc : Host :=
  {| LocalTZA := fun _ => 0; Date_parse := JsDate.parseIsoDate |}.

Definition brasilia : Host :=
  {| LocalTZA := fun _ => -3 * 3600000; Date_parse := JsDate.parseIsoDate |}.

(** ** Data model *)

Module Account.
Record t := mk { id : Z; name : string; balance : Q }.
End Account.

Module Transaction.
Record t := mk {
  id : Z;
  description : string;
  amount : Q;
  transaction_type : string;
  category : string;
  account_id : Z;
  date : string
}.
End Transaction.

Module BalanceHistoryPoint.
Record t := mk { date : string; balance : Q }.
End BalanceHistoryPoint.

(** ** Account balance indicator ([AccountIndicator]) *)

Module AccountIndicator.

(** [getBalanceColor], lines 23-27. *)
Definition getBalanceColor (balance : Q) : string :=
  if Qlt_le_dec 1000 balance then "success.main"
  else if Qlt_le_dec 0 balance then "warning.main"
  else "error.main".

(** The three colour tiers the specification names, and the theme colour
    each one is rendered with. *)
Inductive colorTier := highPositive | lowPositive | negative.

Definition tierColor (t : colorTier) : string :=
  match t with
  | highPositive => "success.main"
  | lowPositive => "warning.main"
  | negative => "error.main"
  end.

(** [getProgressValue], lines 38-43, in exact arithmetic: the number the
    expression denotes when no operation rounds.  The function as it runs,
    on doubles, is [Double.getProgressValue] below. *)
Definition maxValue : Q := 5000.

Definition getProgressValue (balance : Q) : Q :=
  Qmax 0 (Qmin 100 ((balance / maxValue) * 100)).

(** The specification's [clamp(x, lo, hi)]. *)
Definition clamp_spec (x lo hi : Q) : Q :=
  if Qlt_le_dec x lo then lo
  else if Qlt_le_dec hi x then hi
  else x.

(** [getBalanceIcon], lines 29-36: the icon and its [color]. *)
Inductive Icon := TrendingUpIcon | TrendingDownIcon | AccountBalanceIcon.

Definition getBalanceIcon (balance : Q) : Icon * string :=
  if Qlt_le_dec 0 balance then (TrendingUpIcon, "success")
  else if Qlt_le_dec balance 0 then (TrendingDownIcon, "error")
  else (AccountBalanceIcon, "action").

(** The status caption, line 80. *)
Definition statusCaption (balance : Q) : string :=
  if Qlt_le_dec 0 balance then "Positivo"
  else if Qlt_le_dec balance 0 then "Negativo"
  else "Zerado".

(** The [color] of the progress bar, line 87. *)
Definition progressColor (balance : Q) : string :=
  if Qlt_le_dec 1000 balance then "success"
  else if Qlt_le_dec 0 balance then "warning"
  else "error".

(** *** The same functions on doubles

    A JavaScript number is an IEEE 754 binary64 value: a signed zero, a
    signed infinity, NaN, or [(-1)^s * m * 2^e] with a mantissa of at most
    53 bits.  Division and multiplication round to nearest, ties to
    even. *)
Module Double.

Definition prec : Z := 53.
Definition emax : Z := 1024.

(** An integer literal of the source. *)
Definition ofZ (n : Z) : spec_float := binary_normalize prec emax n 0 false.

(** [Math.min] and [Math.max] of two arguments: NaN if either is NaN, and
    [-0] is smaller than [+0]. *)
Definition Math_min (a b : spec_float) : spec_float :=
  match SFcompare a b with
  | None => S754_nan
  | Some Lt => a
  | Some Gt => b
  | Some Eq => match a with S754_zero true => a | _ => b end
  end.

Definition Math_max (a b : spec_float) : spec_float :=
  match SFcompare a b with
  | None => S754_nan
  | Some Gt => a
  | Some Lt => b
  | Some Eq => match a with S754_zero false => a | _ => b end
  end.

(** [getBalanceColor], lines 23-27. *)
Definition getBalanceColor (balance : spec_float) : string :=
  if SFltb (ofZ 1000) balance then "success.main"
  else if SFltb (ofZ 0) balance then "warning.main"
  else "error.main".

(** [getProgressValue], lines 38-43. *)
Definition maxValue : spec_float := ofZ 5000.

Definition getProgressValue (balance : spec_float) : spec_float :=
  Math_max (ofZ 0)
    (Math_min (ofZ 100)
       (SFmul prec emax (SFdiv prec emax balance maxValue) (ofZ 100))).

(** The specification's [clamp(x, lo, hi)], on doubles. *)
Definition clamp_spec (x lo hi : spec_float) : spec_float :=
  if SFltb x lo then lo
  else if SFltb hi x then hi
  else x.

(** The two zeros are one number; [plusZero] picks [+0] for it. *)
Definition plusZero (x : spec_float) : spec_float :=
  match x with
  | S754_zero _ => S754_zero false
  | _ => x
  end.

(** The rational a finite double is. *)
Definition toQ (x : spec_float) : option Q :=
  match x with
  | S754_zero _ => Some 0%Q
  | S754_finite s m e =>
      Some (inject_Z (if s then Z.neg m else Z.pos m) * Qpower 2 e)%Q
  | S754_infinity _ | S754_nan => None
  end.

(** The percentage before it is clamped. *)
Definition scaled (balance : spec_float) : spec_float :=
  SFmul prec emax (SFdiv prec emax balance maxValue) (ofZ 100).

(** A double other than NaN that carries the sign bit [s]. *)
Inductive signed (s : bool) : spec_float -> Prop :=
| signed_zero : signed s (S754_zero s)
| signed_infinity : signed s (S754_infinity s)
| signed_finite m e : signed s (S754_finite s m e).

End Double.

End AccountIndicator.

(** ** Transaction list ([TransactionList]) *)

Module TransactionList.
Import JsDate.

(** [getAccountName], lines 129-132: [accounts.find] returns the first
    account with the given id, or [undefined]. *)
Definition getAccountName (accounts : list Account.t) (accountId : Z) : string :=
  match List.find (fun acc => Account.id acc =? accountId) accounts with
  | Some account => Account.name account
  | None => "Conta desconhecida"
  end.

(** The object [grouped]: its keys are month labels, which always contain
    a space, so none of them is an array index or a property inherited
    from [Object.prototype], and [Object.keys] and [Object.entries]
    enumerate them in insertion order.  It is an association list in that
    order. *)
Definition Grouped : Type := list (string * list Transaction.t).

(** Lines 153-156: create the month's array on first encounter, then push
    the transaction at its end. *)
Fixpoint push (monthKey : string) (transaction : Transaction.t)
  (grouped : Grouped) : Grouped :=
  match grouped with
  | [] => [(monthKey, [transaction])]
  | (k, ts) :: rest =>
      if String.eqb k monthKey then (k, ts ++ [transaction]) :: rest
      else (k, ts) :: push monthKey transaction rest
  end.

Section WithHost.
Context {host : Host}.

(** Lines 150-151. *)
Definition monthKeyOf (transaction : Transaction.t) : completion string :=
  format_MMMM_yyyy (newDate (Transaction.date transaction)).

(** The body of the first [forEach], lines 149-157. *)
Definition groupStep (grouped : Grouped) (transaction : Transaction.t)
  : completion Grouped :=
  monthKey ← monthKeyOf transaction;
  mret (push monthKey transaction grouped).

(** The comparator of line 161, [new Date(b.date) - new Date(a.date)];
    [None] is [NaN]. *)
Definition compareFn (a b : Transaction.t) : option Z :=
  tb ← newDate (Transaction.date b);
  ta ← newDate (Transaction.date a);
  Some (tb - ta).

(** [a] is to be placed after [b]: the comparator is positive ([NaN]
    counts as [0]). *)
Definition sortsAfter (a b : Transaction.t) : bool :=
  match compareFn a b with
  | Some v => 0 <? v
  | None => false
  end.

(** [Array.prototype.sort] is stable, and with a consistent comparator
    every stable sort returns the same array: a stable insertion sort. *)
Fixpoint insert (x : Transaction.t) (l : list Transaction.t)
  : list Transaction.t :=
  match l with
  | [] => [x]
  | y :: l' => if sortsAfter x y then y :: insert x l' else x :: y :: l'
  end.

Definition sort (l : list Transaction.t) : list Transaction.t :=
  foldr insert [] l.

(** [groupTransactionsByMonth], lines 146-165. *)
Definition groupTransactionsByMonth (transactions : list Transaction.t)
  : completion Grouped :=
  grouped ← forEach groupStep transactions [];
  mret (map (fun '(month, ts) => (month, sort ts)) grouped).

(** A transaction whose date the host parses to a time value. *)
Definition validDate (t : Transaction.t) : Prop :=
  is_Some (newDate (Transaction.date t)).

(** Every transaction of a group carries the group's month label. *)
Definition labelled (grouped : Grouped) : Prop :=
  Forall (fun g => Forall (fun t => monthKeyOf t = Return (fst g)) (snd g)) grouped.

(** The time value of a transaction's date, [0] standing in for [NaN]. *)
Definition timeOf (t : Transaction.t) : Z :=
  default 0 (newDate (Transaction.date t)).

(** [a] may stand before [b] in a group: it is not older. *)
Definition notOlder (a b : Transaction.t) : Prop := timeOf b <= timeOf a.

End WithHost.

(** The transactions of the specification's example differ only in their
    dates. *)
Definition exampleTransaction (id : Z) (date : string) : Transaction.t :=
  Transaction.mk id "Compra" 10 "saida" "Mercado" 1 date.

(** Reading [grouped[month]], with the empty array for an absent key. *)
Fixpoint members (month : string) (grouped : Grouped) : list Transaction.t :=
  match grouped with
  | [] => []
  | (k, ts) :: rest => if String.eqb k month then ts else members month rest
  end.

(** The labels of a list in the order of their first occurrence. *)
Fixpoint firstSeen (labels : list string) : list string :=
  match labels with
  | [] => []
  | k :: rest => k :: filter (fun k' => k' <> k) (firstSeen rest)
  end.

Section WithHost.
Context {host : Host}.

(** The month label of a transaction, when [format] returns one. *)
Definition monthLabel (transaction : Transaction.t) : option string :=
  match monthKeyOf transaction with
  | Return k => Some k
  | Throw _ => None
  end.

End WithHost.

(** [toUpperCase] of a first character, for the letters of ASCII (the
    month names of the table start with one). *)
Definition toUpperCase (c : ascii) : ascii :=
  let n := N_of_ascii c in
  if ((97 <=? n) && (n <=? 122))%N then ascii_of_N (n - 32) else c.

(** The heading of a month, line 205:
    [month.charAt(0).toUpperCase() + month.slice(1)]. *)
Definition heading (month : string) : string :=
  match month with
  | String c rest => String (toUpperCase c) rest
  | EmptyString => ""
  end.

(** One transaction of the list, lines 210-260; the amount is kept as the
    sign and the magnitude that [formatCurrency] is given. *)
Record Row := mkRow {
  key : Z;
  incoming : bool;
  primary : string;
  sign : string;
  magnitude : Q;
  categoryChip : string;
  accountChip : string;
  dateText : string;
  divider : bool
}.

(** What the component shows: lines 167-177, 179-195 and 199-267. *)
Inductive View :=
| Spinner
| EmptyState
| Months (sections : list (string * list Row)).

Section WithHost.
Context {host : Host}.

(** [formatDate], lines 141-144. *)
Definition formatDate (dateString : string) : completion string :=
  format_dd_MM_yyyy (newDate dateString).

Definition row (accounts : list Account.t) (len : nat) (index : nat)
  (transaction : Transaction.t) : completion Row :=
  let incoming := String.eqb (Transaction.transaction_type transaction) "entrada" in
  dateText ← formatDate (Transaction.date transaction);
  mret (mkRow (Transaction.id transaction)
              incoming
              (Transaction.description transaction)
              (if incoming then "+" else "-")
              (Qabs (Transaction.amount transaction))
              (Transaction.category transaction)
              (getAccountName accounts (Transaction.account_id transaction))
              dateText
              (Z.of_nat index <? Z.of_nat len - 1)).

(** [monthTransactions.map((transaction, index) => ...)]. *)
Fixpoint rows (accounts : list Account.t) (len : nat) (index : nat)
  (monthTransactions : list Transaction.t) : completion (list Row) :=
  match monthTransactions with
  | [] => mret []
  | transaction :: rest =>
      r ← row accounts len index transaction;
      rs ← rows accounts len (S index) rest;
      mret (r :: rs)
  end.

(** [Object.entries(groupedTransactions).map(([month, ...]) => ...)]. *)
Fixpoint sections (accounts : list Account.t) (grouped : Grouped)
  : completion (list (string * list Row)) :=
  match grouped with
  | [] => mret []
  | (month, monthTransactions) :: rest =>
      rs ← rows accounts (length monthTransactions) 0 monthTransactions;
      ss ← sections accounts rest;
      mret ((heading month, rs) :: ss)
  end.

Definition render (transactions : list Transaction.t)
  (accounts : list Account.t) (loading : bool) : completion View :=
  if loading then mret Spinner
  else if (length transactions =? 0)%nat then mret EmptyState
  else
    groupedTransactions ← groupTransactionsByMonth transactions;
    ss ← sections accounts groupedTransactions;
    mret (Months ss).

End WithHost.

End TransactionList.

(** Assumptions on a host: it parses the date-only form as ECMAScript
    prescribes, and its local time is UTC or ahead of it by less than a
    day. *)
Definition parsesIsoDates (host : Host) : Prop :=
  forall s t, JsDate.parseIsoDate s = Some t -> Date_parse s = Some t.

Definition eastOfUTC (host : Host) : Prop :=
  forall t, 0 <= LocalTZA t < JsDate.msPerDay.

(** A host whose local time is behind UTC, by a day at most. *)
Definition westOfUTC (host : Host) : Prop :=
  forall t, - JsDate.msPerDay <= LocalTZA t < 0.

(** ** Effects of the data loaders *)

(** What a loader does to the outside: a GET request, a line on the
    error console. *)
Inductive Effect :=
| EFetch (url : string)
| EConsoleError (msg : string).

(** The outcome of [fetch(url)] followed by [response.json()]: the parsed
    body, or a rejection (network or parse failure). *)
Inductive Response (A : Type) : Type :=
| Resolved (data : A)
| Rejected.
Arguments Resolved {A} data.
Arguments Rejected {A}.

(** ** Balance chart ([BalanceChart]) *)

Module BalanceChart.
Import JsDate.

Record State := mkState {
  selectedAccount : JsVal;
  balanceHistory : list BalanceHistoryPoint.t;
  loading : bool
}.

Definition setSelectedAccount (v : JsVal) (s : State) : State :=
  mkState v (balanceHistory s) (loading s).
Definition setBalanceHistory (h : list BalanceHistoryPoint.t) (s : State) : State :=
  mkState (selectedAccount s) h (loading s).
Definition setLoading (b : bool) (s : State) : State :=
  mkState (selectedAccount s) (balanceHistory s) b.

Definition balanceHistoryUrl (selected : JsVal) : string :=
  "http://localhost:8000/accounts/" +:+ toString selected
  +:+ "/balance-history?days=30".

(** [loadBalanceHistory], lines 32-49, run to completion against a
    network [net]. *)
Definition loadBalanceHistory (net : string -> Response (list BalanceHistoryPoint.t))
  (s : State) : State * list Effect :=
  if negb (truthy (selectedAccount s)) then (s, [])
  else
    let s := setLoading true s in
    let url := balanceHistoryUrl (selectedAccount s) in
    match net url with
    | Resolved data =>
        (setLoading false (setBalanceHistory data s), [EFetch url])
    | Rejected =>
        (setLoading false (setBalanceHistory [] s),
         [EFetch url; EConsoleError "Erro ao carregar histórico de saldo:"])
    end.

Record ChartData := mkChartData {
  xAxis : list string;
  series : list Q
}.

Section WithHost.
Context {host : Host}.

(** [prepareChartData], lines 63-73; it reads the state's
    [balanceHistory]. *)
Definition prepareChartData (s : State) : ChartData :=
  if (length (balanceHistory s) =? 0)%nat then mkChartData [] []
  else
    let dates := map (fun item =>
                        toLocaleDateString_ptBR
                          (newDate (BalanceHistoryPoint.date item)))
                     (balanceHistory s) in
    let balances := map BalanceHistoryPoint.balance (balanceHistory s) in
    mkChartData dates balances.

(** The label [prepareChartData] computes for a point, line 67, under a
    name. *)
Definition labelOf (item : BalanceHistoryPoint.t) : string :=
  toLocaleDateString_ptBR (newDate (BalanceHistoryPoint.date item)).

End WithHost.

(** The label the specification gives a point dated [YYYY-MM-DD]: that
    day as pt-BR writes it (its example: [2024-01-01] is labelled
    [01/01/2024]). *)
Definition dateLabel (date : Z * Z * Z) : string :=
  let '(y, m, d) := date in
  addLeadingZeros d 2 +:+ "/" +:+ addLeadingZeros m 2 +:+ "/"
  +:+ Z_to_string y.

(** A balance-history point dated [(y, m, d)], and the entries whose
    date is a date of the calendar. *)
Definition pointOn (entry : Z * Z * Z * Q) : BalanceHistoryPoint.t :=
  let '(y, m, d, balance) := entry in
  BalanceHistoryPoint.mk (isoDate y m d) balance.

Definition dated (entry : Z * Z * Z * Q) : Prop :=
  let '(y, m, d, _) := entry in calendarDate y m d.

(** The state the component starts in, lines 16-18. *)
Definition initialState : State := mkState (VStr "") [] false.

(** The effect of lines 20-24: with accounts and nothing selected, select
    the first account. *)
Definition selectFirstAccount (accounts : list Account.t) (s : State) : State :=
  match accounts with
  | account :: _ =>
      if negb (truthy (selectedAccount s))
      then setSelectedAccount (VNum (Account.id account)) s
      else s
  | [] => s
  end.

(** The effect of lines 26-30: load the history of the selection. *)
Definition loadOnSelection (net : string -> Response (list BalanceHistoryPoint.t))
  (s : State) : State * list Effect :=
  if truthy (selectedAccount s) then loadBalanceHistory net s else (s, []).

(** What the card shows below its title, lines 101-133. *)
Inductive View :=
| Spinner
| NoData
| LineChart (data : list Q) (label : string) (xAxis : list string).

(** [getAccountName], lines 58-61. *)
Definition getAccountName (accounts : list Account.t) (accountId : JsVal)
  : string :=
  match List.find (fun acc => match parseInt accountId with
                              | Some n => Account.id acc =? n
                              | None => false
                              end) accounts with
  | Some account => Account.name account
  | None => "Conta"
  end.

Section WithHost.
Context {host : Host}.

Definition view (accounts : list Account.t) (s : State) : View :=
  if loading s then Spinner
  else if (length (balanceHistory s) =? 0)%nat then NoData
  else
    let chartData := prepareChartData s in
    LineChart (series chartData)
              (getAccountName accounts (selectedAccount s))
              (xAxis chartData).

End WithHost.

End BalanceChart.

(** ** Query strings ([URLSearchParams]) *)

Module URLSearchParams.

Definition t : Type := list (string * string).

Definition append (name : string) (value : JsVal) (params : t) : t :=
  params ++ [(name, toString value)].

Definition hexDigit (n : N) : ascii :=
  ascii_of_N (if (n <? 10)%N then 48 + n else 55 + n).

(** The application/x-www-form-urlencoded byte serializer: letters, digits
    and [*-._] stay, a space becomes [+], any other byte is
    percent-encoded. *)
Definition encodeByte (c : ascii) : string :=
  let n := N_of_ascii c in
  if (n =? 32)%N then "+"
  else if ((48 <=? n) && (n <=? 57) || (65 <=? n) && (n <=? 90)
           || (97 <=? n) && (n <=? 122)
           || (n =? 42) || (n =? 45) || (n =? 46) || (n =? 95))%N
       then String c ""
       else String "%" (String (hexDigit (n / 16)) (String (hexDigit (n mod 16)) "")).

Fixpoint encode (s : string) : string :=
  match s with
  | EmptyString => ""
  | String c s' => encodeByte c +:+ encode s'
  end.

(** [params.toString()]: [name=value] pairs joined by [&]. *)
Fixpoint serialize (params : t) : string :=
  match params with
  | [] => ""
  | [(n, v)] => encode n +:+ "=" +:+ encode v
  | (n, v) :: rest => encode n +:+ "=" +:+ encode v +:+ "&" +:+ serialize rest
  end.

(** How many times a character occurs in a string. *)
Fixpoint occurrences (c : ascii) (s : string) : nat :=
  match s with
  | EmptyString => 0
  | String c' s' => (if Ascii.eqb c' c then 1 else 0) + occurrences c s'
  end.

End URLSearchParams.

(** ** Dashboard page ([Dashboard]) *)

Module Dashboard.

Record State := mkState {
  transactions : list Transaction.t;
  accounts : list Account.t;
  openForm : bool;
  filters : gmap string JsVal;
  loading : bool
}.

Definition setTransactions (v : list Transaction.t) (s : State) : State :=
  mkState v (accounts s) (openForm s) (filters s) (loading s).
Definition setAccounts (v : list Account.t) (s : State) : State :=
  mkState (transactions s) v (openForm s) (filters s) (loading s).
Definition setOpenForm (v : bool) (s : State) : State :=
  mkState (transactions s) (accounts s) v (filters s) (loading s).
Definition setFilters (v : gmap string JsVal) (s : State) : State :=
  mkState (transactions s) (accounts s) (openForm s) v (loading s).
Definition setLoading (v : bool) (s : State) : State :=
  mkState (transactions s) (accounts s) (openForm s) (filters s) v.

(** The initial filters, lines 32-38, given the current month and year. *)
Definition initialFilters (month year : Z) : gmap string JsVal :=
  {[ "month" := VNum month; "year" := VNum year;
     "transactionType" := VStr ""; "category" := VStr "";
     "accountId" := VStr "" ]}.

Definition accountsUrl : string := "http://localhost:8000/accounts/".

(** [loadAccounts], lines 47-55. *)
Definition loadAccounts (net : string -> Response (list Account.t))
  (s : State) : State * list Effect :=
  match net accountsUrl with
  | Resolved data => (setAccounts data s, [EFetch accountsUrl])
  | Rejected =>
      (s, [EFetch accountsUrl; EConsoleError "Erro ao carregar contas:"])
  end.

(** One line of 61-65: [if (filters.f) params.append(name, filters.f)]. *)
Definition appendIfSet (f : gmap string JsVal) (field name : string)
  (params : URLSearchParams.t) : URLSearchParams.t :=
  if truthy (get f field) then URLSearchParams.append name (get f field) params
  else params.

(** Lines 60-65: the query parameters built from the filters. *)
Definition buildParams (f : gmap string JsVal) : URLSearchParams.t :=
  let params := [] in
  let params := appendIfSet f "month" "month" params in
  let params := appendIfSet f "year" "year" params in
  let params := appendIfSet f "transactionType" "transaction_type" params in
  let params := appendIfSet f "category" "category" params in
  let params := appendIfSet f "accountId" "account_id" params in
  params.

Definition transactionsUrl (f : gmap string JsVal) : string :=
  "http://localhost:8000/transactions/?"
  +:+ URLSearchParams.serialize (buildParams f).

(** [loadTransactions], lines 57-75. *)
Definition loadTransactions (net : string -> Response (list Transaction.t))
  (s : State) : State * list Effect :=
  let s := setLoading true s in
  let url := transactionsUrl (filters s) in
  match net url with
  | Resolved data => (setLoading false (setTransactions data s), [EFetch url])
  | Rejected =>
      (setLoading false s,
       [EFetch url; EConsoleError "Erro ao carregar transações:"])
  end.

(** [handleFiltersChange], lines 83-85. *)
Definition handleFiltersChange (newFilters : gmap string JsVal) (s : State)
  : State :=
  setFilters (spread (filters s) newFilters) s.

(** The filter fields lines 61-65 visit, in order, each with the name of
    its query parameter. *)
Definition paramTable : list (string * string) :=
  [("month", "month"); ("year", "year");
   ("transactionType", "transaction_type"); ("category", "category");
   ("accountId", "account_id")].

(** Two loaders started one after the other and not awaited: each runs
    up to its [fetch] before the caller goes on, so both requests are
    issued, in the order of the calls, before either response is
    handled; the console lines of the failures follow (in the order of
    the calls here; the program leaves it to the network). *)
Definition isFetch (e : Effect) : bool :=
  match e with
  | EFetch _ => true
  | EConsoleError _ => false
  end.

Definition notAwaited (e1 e2 : list Effect) : list Effect :=
  List.filter isFetch (e1 ++ e2)
  ++ List.filter (fun e => negb (isFetch e)) (e1 ++ e2).

(** The effect of lines 42-45, run on mount and whenever the filters
    change, and [handleTransactionCreated], lines 77-81.  The state
    updates of the two loaders touch different fields, so the state is
    given by handling the responses in the order of the calls. *)
Definition loadInitialData (netA : string -> Response (list Account.t))
  (netT : string -> Response (list Transaction.t)) (s : State)
  : State * list Effect :=
  let '(s, e1) := loadAccounts netA s in
  let '(s, e2) := loadTransactions netT s in
  (s, notAwaited e1 e2).

Definition handleTransactionCreated (netT : string -> Response (list Transaction.t))
  (netA : string -> Response (list Account.t)) (s : State)
  : State * list Effect :=
  let s := setOpenForm false s in
  let '(s, e1) := loadTransactions netT s in
  let '(s, e2) := loadAccounts netA s in
  (s, notAwaited e1 e2).

End Dashboard.

(** * Properties *)

Section BalanceIndicator.
Import AccountIndicator.
Local Open Scope Q_scope.

(** C2. For every balance [b], [getBalanceColor] yields the highPositive
    tier (success colour) iff [b > 1000], the negative tier (error colour)
    iff [b <= 0], and the lowPositive tier (warning colour) iff
    [0 < b <= 1000]; in particular [1000] is lowPositive and [0] is
    negative. *)
Theorem getBalanceColor_tiers :
  (forall b : Q,
      (getBalanceColor b = tierColor highPositive <-> 1000 < b) /\
      (getBalanceColor b = tierColor negative <-> b <= 0) /\
      (getBalanceColor b = tierColor lowPositive <-> 0 < b /\ b <= 1000)) /\
  getBalanceColor 1000 = tierColor lowPositive /\
  getBalanceColor 0 = tierColor negative.
Proof.
  split; [| split; reflexivity].
  intros b. unfold getBalanceColor, tierColor.
  destruct (Qlt_le_dec 1000 b) as [Hhi | Hhi];
    [| destruct (Qlt_le_dec 0 b) as [Hlo | Hlo]];
    (split; [| split]); (split; [intros E | intros L]);
    try discriminate E; try reflexivity; try lra.
Qed.

(** In exact arithmetic, [getProgressValue b] is
    [clamp(b/5000*100, 0, 100)] for every rational balance [b]; [2500]
    gives [50], [10000] gives [100] and [-100] gives [0]. *)
Theorem getProgressValue_clamp :
  (forall b : Q, getProgressValue b == clamp_spec (b / 5000 * 100) 0 100) /\
  getProgressValue 2500 == 50 /\
  getProgressValue 10000 == 100 /\
  getProgressValue (-100) == 0.
Proof.
  split; [| repeat split; vm_compute; reflexivity].
  intros b. unfold getProgressValue, clamp_spec, maxValue.
  set (x := b / 5000 * 100).
  destruct (Qlt_le_dec x 0) as [Hlo | Hlo].
  - apply Q.max_l. apply Qle_trans with x; [apply Q.le_min_r | lra].
  - destruct (Qlt_le_dec 100 x) as [Hhi | Hhi].
    + rewrite (Q.min_l 100 x) by (apply Qlt_le_weak, Hhi).
      apply Q.max_r. discriminate.
    + rewrite (Q.min_r 100 x) by exact Hhi.
      apply Q.max_r, Hlo.
Qed.

End BalanceIndicator.

(** ** The progress value as the program computes it *)

Section BalanceIndicatorDoubles.
Import AccountIndicator.Double.

(** [Math.max(0, Math.min(100, x))] is the clamp of [x], with [+0] for a
    zero. *)
Lemma clamp_eq (x : spec_float) :
  Math_max (ofZ 0) (Math_min (ofZ 100) x)
  = plusZero (clamp_spec x (ofZ 0) (ofZ 100)).
Proof.
  change (ofZ 0) with (S754_zero false).
  change (ofZ 100) with (S754_finite false 7036874417766400 (-46)).
  unfold Math_max, Math_min, clamp_spec, SFltb.
  destruct x as [[] | [] | | [] m e]; try reflexivity;
    cbn [SFcompare];
    destruct (-46 ?= e) eqn:E1; try reflexivity;
    destruct (e ?= -46) eqn:E2; try reflexivity;
    try (apply Z.compare_eq in E1; subst; discriminate);
    try (apply Z.compare_eq in E2; subst; discriminate);
    try (rewrite Z.compare_antisym, E2 in E1; discriminate).
  all: destruct (Pos.compare_cont Eq 7036874417766400 m) eqn:E3; try reflexivity.
Qed.

(** Rounding keeps the sign: the mantissa stays non-negative through the
    shifts, so the result is never NaN and carries the sign it was
    given. *)
Lemma shr_1_nonneg mrs : 0 <= shr_m mrs -> 0 <= shr_m (shr_1 mrs).
Proof.
  destruct mrs as [m r s]. cbn [shr_m shr_1].
  destruct m as [|[p|p|]|[p|p|]]; cbn [shr_m]; lia.
Qed.

Lemma iter_pos_shr_1_nonneg (p : positive) mrs :
  0 <= shr_m mrs -> 0 <= shr_m (SpecFloat.iter_pos shr_1 p mrs).
Proof.
  revert mrs. induction p as [p IH|p IH|]; intros mrs H; cbn [SpecFloat.iter_pos].
  - apply IH, IH, shr_1_nonneg, H.
  - apply IH, IH, H.
  - apply shr_1_nonneg, H.
Qed.

Lemma shr_nonneg mrs e n : 0 <= shr_m mrs -> 0 <= shr_m (fst (shr mrs e n)).
Proof.
  intros H. unfold shr. destruct n; cbn [fst]; try exact H.
  apply iter_pos_shr_1_nonneg, H.
Qed.

Lemma shr_fexp_nonneg m e l :
  0 <= m -> 0 <= shr_m (fst (shr_fexp prec emax m e l)).
Proof.
  intros H. unfold shr_fexp. apply shr_nonneg.
  unfold shr_record_of_loc. destruct l as [|[]]; exact H.
Qed.

Lemma round_nearest_even_nonneg m l : 0 <= m -> 0 <= round_nearest_even m l.
Proof.
  intros H. unfold round_nearest_even.
  destruct l as [|[]]; try destruct (Z.even m); lia.
Qed.

Lemma binary_round_aux_signed s mx ex lx :
  0 <= mx -> signed s (binary_round_aux prec emax s mx ex lx).
Proof.
  intros H. unfold binary_round_aux.
  pose proof (shr_fexp_nonneg mx ex lx H) as H1.
  destruct (shr_fexp prec emax mx ex lx) as [mrs' e'].
  cbn [fst] in H1.
  pose proof (round_nearest_even_nonneg _ (loc_of_shr_record mrs') H1) as H2.
  pose proof (shr_fexp_nonneg _ e' loc_Exact H2) as H3.
  destruct (shr_fexp prec emax _ e' loc_Exact) as [mrs'' e''].
  cbn [fst] in H3.
  destruct (shr_m mrs''); try lia.
  - constructor.
  - destruct (_ <=? _); constructor.
Qed.

Lemma SFdiv_signed sx mx ex sy my ey :
  signed (xorb sx sy)
    (SFdiv prec emax (S754_finite sx mx ex) (S754_finite sy my ey)).
Proof.
  cbn [SFdiv]. unfold SFdiv_core_binary.
  set (e' := Z.min _ _). set (s := ex - ey - e').
  set (m' := match s with Z.pos _ => _ | Z0 => _ | Z.neg _ => _ end).
  assert (0 <= m') as Hm'.
  { subst m'. destruct s; try lia. apply Z.shiftl_nonneg. lia. }
  pose proof (Z_div_mod m' (Z.pos my) eq_refl) as Hq.
  destruct (Z.div_eucl m' (Z.pos my)) as [q r].
  apply binary_round_aux_signed. nia.
Qed.

Lemma SFmul_signed sx mx ex sy my ey :
  signed (xorb sx sy)
    (SFmul prec emax (S754_finite sx mx ex) (S754_finite sy my ey)).
Proof. cbn [SFmul]. apply binary_round_aux_signed. lia. Qed.

(** [(balance / 5000) * 100] has the sign of [balance]. *)
Lemma scaled_signed (b : spec_float) :
  match b with
  | S754_nan => scaled b = S754_nan
  | S754_zero s => scaled b = S754_zero s
  | S754_infinity s => scaled b = S754_infinity s
  | S754_finite s _ _ => signed s (scaled b)
  end.
Proof.
  unfold scaled.
  change maxValue with (S754_finite false 5497558138880000 (-40)).
  change (ofZ 100) with (S754_finite false 7036874417766400 (-46)).
  destruct b as [[] | [] | | s m e]; try reflexivity.
  pose proof (SFdiv_signed s m e false 5497558138880000 (-40)) as H.
  rewrite xorb_false_r in H.
  destruct H as [ | | m' e'].
  - cbn [SFmul]. rewrite xorb_false_r. constructor.
  - cbn [SFmul]. rewrite xorb_false_r. constructor.
  - pose proof (SFmul_signed s m' e' false 7036874417766400 (-46)) as H.
    rewrite xorb_false_r in H. exact H.
Qed.

Lemma getProgressValue_scaled (b : spec_float) :
  getProgressValue b = plusZero (clamp_spec (scaled b) (ofZ 0) (ofZ 100)).
Proof. apply clamp_eq. Qed.

Lemma clamp_range (x : spec_float) :
  x = S754_nan \/
  (SFleb (ofZ 0) (plusZero (clamp_spec x (ofZ 0) (ofZ 100))) = true /\
   SFleb (plusZero (clamp_spec x (ofZ 0) (ofZ 100))) (ofZ 100) = true).
Proof.
  change (ofZ 0) with (S754_zero false).
  change (ofZ 100) with (S754_finite false 7036874417766400 (-46)).
  unfold clamp_spec, SFltb, SFleb.
  destruct x as [[] | [] | | [] m e]; auto; right;
    cbn [SFcompare plusZero]; try (split; reflexivity).
  rewrite (Z.compare_antisym e (-46)).
  destruct (e ?= -46) eqn:E; cbn [CompOpp plusZero SFcompare];
    rewrite ?E; try (split; reflexivity).
  change (Pos.compare_cont Eq 7036874417766400 m)
    with (Pos.compare_cont (CompOpp Eq) 7036874417766400 m).
  rewrite <- (Pos.compare_cont_antisym m 7036874417766400 Eq).
  destruct (Pos.compare_cont Eq m 7036874417766400) eqn:E';
    cbn [CompOpp plusZero SFcompare]; rewrite ?E, ?E', ?Z.compare_refl;
    split; reflexivity.
Qed.

Lemma clamp_nonpositive (x : spec_float) :
  signed true x -> plusZero (clamp_spec x (ofZ 0) (ofZ 100)) = S754_zero false.
Proof. intros []; reflexivity. Qed.

Lemma signed_not_nan s x : signed s x -> x <> S754_nan.
Proof. intros [] ?; discriminate. Qed.

Lemma scaled_nan (b : spec_float) : scaled b = S754_nan <-> b = S754_nan.
Proof.
  pose proof (scaled_signed b) as H. split.
  - intros E. destruct b; try reflexivity; rewrite E in H; try discriminate.
    inversion H.
  - intros ->. exact H.
Qed.

Lemma clamp_nan (x : spec_float) :
  plusZero (clamp_spec x (ofZ 0) (ofZ 100)) = S754_nan <-> x = S754_nan.
Proof.
  split; [|intros ->; reflexivity].
  change (ofZ 0) with (S754_zero false).
  change (ofZ 100) with (S754_finite false 7036874417766400 (-46)).
  unfold clamp_spec, SFltb.
  destruct x as [[] | [] | | [] m e]; cbn [SFcompare plusZero]; try discriminate;
    try reflexivity.
  destruct (-46 ?= e); try discriminate.
  destruct (Pos.compare_cont Eq 7036874417766400 m); discriminate.
Qed.

(** C3 (as amended). For every double [b], [getProgressValue b] is
    [clamp(x, 0, 100)] of the double [x] that [(b / 5000) * 100] rounds
    to (division, then multiplication, each rounded to nearest), with
    [+0] for a zero and NaN for NaN; [2500] gives [50], [10000] gives
    [100] and [-100] gives [0]. *)
Theorem getProgressValue_double_clamp :
  (forall b : spec_float,
     getProgressValue b
     = plusZero
         (clamp_spec (SFmul prec emax (SFdiv prec emax b (ofZ 5000)) (ofZ 100))
            (ofZ 0) (ofZ 100))) /\
  getProgressValue (ofZ 2500) = ofZ 50 /\
  getProgressValue (ofZ 10000) = ofZ 100 /\
  getProgressValue (ofZ (-100)) = ofZ 0.
Proof.
  split; [intros b; apply clamp_eq |].
  repeat split; vm_compute; reflexivity.
Qed.

(** C3 fails as stated: at the balance [333] the program returns
    [7498493379571877 / 2^50], the double next above [6.66], and not the
    rational [clamp(333/5000*100, 0, 100) = 6.66]. *)
Lemma getProgressValue_not_exact :
  toQ (getProgressValue (ofZ 333))
  = Some (7498493379571877 # 1125899906842624)%Q /\
  ~ (7498493379571877 # 1125899906842624
     == AccountIndicator.clamp_spec (333 / 5000 * 100) 0 100)%Q.
Proof.
  split; [vm_compute; reflexivity |].
  intros H. vm_compute in H. discriminate H.
Qed.

End BalanceIndicatorDoubles.

(** ** Grouping transactions by month *)

Section Grouping.
Import JsDate TransactionList.
Context {host : Host}.

Lemma monthKeyOf_valid t : validDate t -> exists k, monthKeyOf t = Return k.
Proof.
  unfold validDate, monthKeyOf. intros [v ->]. simpl. eauto.
Qed.

Lemma monthKeyOf_Return t k : monthKeyOf t = Return k -> validDate t.
Proof.
  unfold validDate, monthKeyOf.
  destruct (newDate (Transaction.date t)); [eauto | discriminate].
Qed.

Lemma push_concat k t grouped :
  concat (map snd (push k t grouped)) ≡ₚ t :: concat (map snd grouped).
Proof.
  induction grouped as [| [k' ts] rest IH]; simpl; [done |].
  destruct (String.eqb k' k); simpl.
  - rewrite <- app_assoc. simpl. by rewrite <- Permutation_middle.
  - rewrite IH. by rewrite Permutation_middle.
Qed.

Lemma push_keys k t grouped :
  map fst (push k t grouped)
  = if decide (k ∈ map fst grouped) then map fst grouped
    else map fst grouped ++ [k].
Proof.
  induction grouped as [| [k' ts] rest IH]; simpl; [done |].
  destruct (String.eqb_spec k' k) as [-> | Hne]; simpl.
  - rewrite decide_True by apply list_elem_of_here. done.
  - rewrite IH. destruct (decide (k ∈ map fst rest)) as [Hin | Hin].
    + rewrite decide_True by (by apply list_elem_of_further). done.
    + rewrite decide_False; [done |].
      intros [Heq | Hin']%elem_of_cons; [by subst | done].
Qed.

Lemma push_NoDup k t grouped :
  NoDup (map fst grouped) -> NoDup (map fst (push k t grouped)).
Proof.
  intros Hnd. rewrite push_keys. case_decide; [done |].
  apply NoDup_app. split; [done |]. split; [| apply NoDup_singleton].
  intros x Hx Hk. apply list_elem_of_singleton in Hk. by subst.
Qed.

Lemma push_labelled k t grouped :
  monthKeyOf t = Return k -> labelled grouped -> labelled (push k t grouped).
Proof.
  intros Hk. unfold labelled.
  induction grouped as [| [k' ts] rest IH]; simpl; intros Hl.
  - repeat constructor. exact Hk.
  - apply Forall_cons in Hl as [Hts Hrest].
    destruct (String.eqb_spec k' k) as [-> | Hne].
    + constructor; [| done]. simpl in *. apply Forall_app. split; [done |].
      by constructor.
    + constructor; [done |]. by apply IH.
Qed.

Lemma groupStep_Return grouped t k :
  monthKeyOf t = Return k -> groupStep grouped t = Return (push k t grouped).
Proof. unfold groupStep. by intros ->. Qed.

Lemma groupStep_Throw grouped t e :
  monthKeyOf t = Throw e -> groupStep grouped t = Throw e.
Proof. unfold groupStep. by intros ->. Qed.

(** The scan of lines 149-157 returns when every date is valid, and keeps
    the transactions, the distinctness of the labels and the labelling. *)
Lemma forEach_groupStep transactions : forall grouped,
  Forall validDate transactions ->
  NoDup (map fst grouped) -> labelled grouped ->
  exists grouped',
    forEach groupStep transactions grouped = Return grouped' /\
    concat (map snd grouped') ≡ₚ concat (map snd grouped) ++ transactions /\
    NoDup (map fst grouped') /\ labelled grouped'.
Proof.
  induction transactions as [| t ts IH]; intros grouped Hv Hnd Hl;
    cbn [forEach].
  - exists grouped. by rewrite app_nil_r.
  - apply Forall_cons in Hv as [Ht Hts].
    destruct (monthKeyOf_valid t Ht) as [k Hk].
    rewrite (groupStep_Return grouped t k Hk). simpl.
    destruct (IH (push k t grouped) Hts) as (g' & Hrun & Hperm & Hnd' & Hl').
    { by apply push_NoDup. }
    { by apply push_labelled. }
    exists g'. split; [exact Hrun |]. split; [| done].
    rewrite Hperm, push_concat. by rewrite <- Permutation_middle.
Qed.

(** A scan that returns saw only valid dates. *)
Lemma forEach_groupStep_Return transactions : forall grouped grouped',
  forEach groupStep transactions grouped = Return grouped' ->
  Forall validDate transactions.
Proof.
  induction transactions as [| t ts IH]; intros grouped grouped' Hrun;
    [constructor |].
  cbn [forEach] in Hrun.
  destruct (monthKeyOf t) as [k |] eqn:Hk.
  2: { by rewrite (groupStep_Throw grouped t e Hk) in Hrun. }
  rewrite (groupStep_Return grouped t k Hk) in Hrun. simpl in Hrun.
  constructor; [by eapply monthKeyOf_Return | by eapply IH].
Qed.

Lemma insert_Permutation x l : insert x l ≡ₚ x :: l.
Proof.
  induction l as [| y l IH]; simpl; [done |].
  destruct (sortsAfter x y); [| done].
  rewrite IH. apply Permutation_swap.
Qed.

Lemma sort_Permutation l : sort l ≡ₚ l.
Proof.
  induction l as [| x l IH]; simpl; [done |].
  by rewrite insert_Permutation, IH.
Qed.

Lemma sorted_groups_concat (grouped : Grouped) :
  concat (map snd (map (fun '(month, ts) => (month, sort ts)) grouped))
  ≡ₚ concat (map snd grouped).
Proof.
  induction grouped as [| [k ts] rest IH]; simpl; [done |].
  by rewrite IH, sort_Permutation.
Qed.

Lemma sorted_groups_keys (grouped : Grouped) :
  map fst (map (fun '(month, ts) => (month, sort ts)) grouped) = map fst grouped.
Proof.
  induction grouped as [| [k ts] rest IH]; simpl; [done |]. by rewrite IH.
Qed.

Lemma sorted_groups_labelled (grouped : Grouped) :
  labelled grouped ->
  labelled (map (fun '(month, ts) => (month, sort ts)) grouped).
Proof.
  unfold labelled. induction 1 as [| [k ts] rest Hts _ IH]; simpl;
    constructor; [| done].
  simpl in *. by rewrite sort_Permutation.
Qed.

(** C8. [groupTransactionsByMonth] applied to the empty transaction list
    returns an empty mapping. *)
Theorem groupTransactionsByMonth_empty :
  groupTransactionsByMonth [] = Return [].
Proof. reflexivity. Qed.

(** C9 (as amended). For every list of transactions whose dates are all
    valid, [groupTransactionsByMonth] returns, and it preserves
    the multiset of transactions: the concatenation of the groups is a
    permutation of the input, the groups have pairwise distinct labels and
    every transaction sits in the group of its own month label, hence in
    exactly one group. *)
Theorem groupTransactionsByMonth_Permutation (transactions : list Transaction.t) :
  Forall validDate transactions ->
  exists grouped,
    groupTransactionsByMonth transactions = Return grouped /\
    concat (map snd grouped) ≡ₚ transactions /\
    NoDup (map fst grouped) /\
    labelled grouped.
Proof.
  intros Hv.
  destruct (forEach_groupStep transactions [] Hv) as (g & Hrun & Hperm & Hnd & Hl).
  { constructor. }
  { constructor. }
  exists (map (fun '(month, ts) => (month, sort ts)) g).
  unfold groupTransactionsByMonth. rewrite Hrun. simpl.
  split; [done |]. split; [| split].
  - by rewrite sorted_groups_concat, Hperm.
  - by rewrite sorted_groups_keys.
  - by apply sorted_groups_labelled.
Qed.

(** The hypothesis is also necessary: the function returns only when
    every date is valid (on an invalid one [format] throws). *)
Lemma groupTransactionsByMonth_Return_valid (transactions : list Transaction.t)
  (grouped : Grouped) :
  groupTransactionsByMonth transactions = Return grouped ->
  Forall validDate transactions.
Proof.
  unfold groupTransactionsByMonth. intros Hrun.
  destruct (forEach groupStep transactions []) as [g |] eqn:Hscan;
    [| discriminate].
  by eapply forEach_groupStep_Return.
Qed.

(** On valid dates the comparator orders by time value. *)
Lemma sortsAfter_valid a b :
  validDate a -> validDate b -> sortsAfter a b = (timeOf a <? timeOf b).
Proof.
  intros [ta Ha] [tb Hb]. unfold sortsAfter, compareFn, timeOf.
  rewrite Ha, Hb. simpl.
  destruct (Z.ltb_spec 0 (tb - ta)), (Z.ltb_spec ta tb); lia || done.
Qed.

Lemma insert_HdRel a x l :
  notOlder a x -> HdRel notOlder a l -> HdRel notOlder a (insert x l).
Proof.
  intros Hax Hal. destruct l as [| y l]; simpl; [by constructor |].
  destruct (sortsAfter x y); constructor; [by inversion Hal | done].
Qed.

Lemma insert_descending x l :
  validDate x -> Forall validDate l ->
  Sorted notOlder l -> Sorted notOlder (insert x l).
Proof.
  intros Hx Hl Hs. induction Hs as [| y l Hs IH Hhd]; simpl.
  - repeat constructor.
  - apply Forall_cons in Hl as [Hy Hl].
    rewrite (sortsAfter_valid x y Hx Hy).
    destruct (Z.ltb_spec (timeOf x) (timeOf y)) as [Hlt | Hge].
    + constructor; [by apply IH |].
      apply insert_HdRel; [unfold notOlder; lia | done].
    + constructor; [by constructor |]. by constructor.
Qed.

Lemma sort_valid l : Forall validDate l -> Forall validDate (sort l).
Proof. intros Hl. by rewrite sort_Permutation. Qed.

(** Within a group the dates descend: on valid dates, [sort] puts no
    transaction before a more recent one. *)
Lemma sort_descending l : Forall validDate l -> Sorted notOlder (sort l).
Proof.
  induction 1 as [| x l Hx Hl IH]; simpl; [constructor |].
  apply insert_descending; [done | by apply sort_valid | done].
Qed.

End Grouping.

(** The theorem at a list that visits February between two January
    dates, on Brasília time. *)
Lemma groupTransactionsByMonth_Permutation_example :
  exists grouped,
    @TransactionList.groupTransactionsByMonth brasilia
      [TransactionList.exampleTransaction 1 "2024-01-05";
       TransactionList.exampleTransaction 2 "2024-02-10";
       TransactionList.exampleTransaction 3 "2024-01-20"]
    = Return grouped /\
    concat (map snd grouped)
    ≡ₚ [TransactionList.exampleTransaction 1 "2024-01-05";
        TransactionList.exampleTransaction 2 "2024-02-10";
        TransactionList.exampleTransaction 3 "2024-01-20"] /\
    NoDup (map fst grouped) /\
    @TransactionList.labelled brasilia grouped.
Proof.
  apply (@groupTransactionsByMonth_Permutation brasilia).
  repeat constructor; vm_compute; eauto.
Defined.

(** C9 fails as stated: a transaction whose date is the empty string
    makes [groupTransactionsByMonth] throw, so there are no groups for
    the transaction to appear in. *)
Lemma groupTransactionsByMonth_invalid_date :
  @TransactionList.groupTransactionsByMonth brasilia
    [TransactionList.exampleTransaction 1 ""]
  = Throw (RangeError "Invalid time value") /\
  ~ exists grouped,
      @TransactionList.groupTransactionsByMonth brasilia
        [TransactionList.exampleTransaction 1 ""]
      = Return grouped /\
      concat (map snd grouped) ≡ₚ [TransactionList.exampleTransaction 1 ""].
Proof.
  split; [reflexivity |].
  intros (grouped & Hrun & _). discriminate Hrun.
Qed.

(** ** The example of the specification: three dates, two months *)

Section GroupingExample.
Import JsDate TransactionList.

(** Midnight UTC and any instant of the same local day, up to a day
    ahead, fall on the same day number. *)
Lemma Day_LocalTime_east {host : Host} (d : Z) :
  eastOfUTC host -> Day (LocalTime (d * msPerDay)) = d.
Proof.
  intros Heast. unfold Day, LocalTime.
  specialize (Heast (d * msPerDay)). unfold msPerDay in *.
  symmetry. apply (Z.div_unique _ _ d (LocalTZA (d * 86400000))); lia.
Qed.

(** The month label of a date-only string on a host at or east of UTC is
    that of the calendar day the string names. *)
Lemma monthKeyOf_east {host : Host} (t : Transaction.t) (d : Z) :
  parsesIsoDates host -> eastOfUTC host ->
  parseIsoDate (Transaction.date t) = Some (d * msPerDay) ->
  monthKeyOf t
  = Return (ptBR_month (snd (fst (civil_from_days d)) - 1) +:+ " "
            +:+ addLeadingZeros (yearOfEra (fst (fst (civil_from_days d)))) 4).
Proof.
  intros Hiso Heast Hparse. unfold monthKeyOf, newDate.
  rewrite (Hiso _ _ Hparse). unfold format_MMMM_yyyy.
  unfold getMonth, getFullYear, MonthFromTime, YearFromTime.
  by rewrite (Day_LocalTime_east d Heast).
Qed.

(** On a host whose local time is UTC or east of it, for
    three transactions dated 2024-01-05, 2024-01-20 and 2024-02-01 in that
    order, [groupTransactionsByMonth] returns exactly two groups, January
    2024 then February 2024 (first-encounter order), and the January group
    is ordered 2024-01-20, 2024-01-05 (descending by date). *)
Theorem groupTransactionsByMonth_example {host : Host} (t1 t2 t3 : Transaction.t) :
  parsesIsoDates host -> eastOfUTC host ->
  Transaction.date t1 = "2024-01-05" ->
  Transaction.date t2 = "2024-01-20" ->
  Transaction.date t3 = "2024-02-01" ->
  groupTransactionsByMonth [t1; t2; t3]
  = Return [("janeiro 2024", [t2; t1]); ("fevereiro 2024", [t3])].
Proof.
  intros Hiso Heast H1 H2 H3.
  assert (P1 : parseIsoDate (Transaction.date t1) = Some (19727 * msPerDay))
    by (rewrite H1; reflexivity).
  assert (P2 : parseIsoDate (Transaction.date t2) = Some (19742 * msPerDay))
    by (rewrite H2; reflexivity).
  assert (P3 : parseIsoDate (Transaction.date t3) = Some (19754 * msPerDay))
    by (rewrite H3; reflexivity).
  assert (K1 : monthKeyOf t1 = Return "janeiro 2024")
    by (rewrite (monthKeyOf_east t1 _ Hiso Heast P1); reflexivity).
  assert (K2 : monthKeyOf t2 = Return "janeiro 2024")
    by (rewrite (monthKeyOf_east t2 _ Hiso Heast P2); reflexivity).
  assert (K3 : monthKeyOf t3 = Return "fevereiro 2024")
    by (rewrite (monthKeyOf_east t3 _ Hiso Heast P3); reflexivity).
  assert (S12 : sortsAfter t1 t2 = true).
  { unfold sortsAfter, compareFn, newDate.
    rewrite (Hiso _ _ P1), (Hiso _ _ P2). reflexivity. }
  unfold groupTransactionsByMonth. cbn [forEach].
  rewrite (groupStep_Return _ _ _ K1). cbn [mbind completion_bind].
  rewrite (groupStep_Return _ _ _ K2). cbn [mbind completion_bind].
  rewrite (groupStep_Return _ _ _ K3). cbn [mbind completion_bind].
  cbn [push String.eqb Ascii.eqb Bool.eqb app].
  cbn [mret completion_ret map sort foldr insert]. rewrite S12. reflexivity.
Qed.

(** The theorem applies to the host on UTC. *)
Lemma groupTransactionsByMonth_example_utc :
  @groupTransactionsByMonth utc
    [exampleTransaction 1 "2024-01-05"; exampleTransaction 2 "2024-01-20";
     exampleTransaction 3 "2024-02-01"]
  = Return [("janeiro 2024",
             [exampleTransaction 2 "2024-01-20"; exampleTransaction 1 "2024-01-05"]);
            ("fevereiro 2024", [exampleTransaction 3 "2024-02-01"])].
Proof.
  apply (@groupTransactionsByMonth_example utc).
  - intros s t H. exact H.
  - intros t. simpl. unfold msPerDay. lia.
  - reflexivity.
  - reflexivity.
  - reflexivity.
Defined.

(** C1. The three transactions of the example on Brasília time (UTC-3):
    [new Date("2024-02-01")] is midnight UTC, which is still 31 January
    there, and [format] prints local fields, so the code returns one
    group, "janeiro 2024", holding all three, and not the two groups of
    the specification. *)
Lemma groupTransactionsByMonth_example_brasilia :
  parsesIsoDates brasilia /\
  @groupTransactionsByMonth brasilia
    [exampleTransaction 1 "2024-01-05"; exampleTransaction 2 "2024-01-20";
     exampleTransaction 3 "2024-02-01"]
  = Return [("janeiro 2024",
             [exampleTransaction 3 "2024-02-01"; exampleTransaction 2 "2024-01-20";
              exampleTransaction 1 "2024-01-05"])] /\
  @groupTransactionsByMonth brasilia
    [exampleTransaction 1 "2024-01-05"; exampleTransaction 2 "2024-01-20";
     exampleTransaction 3 "2024-02-01"]
  <> Return [("janeiro 2024",
              [exampleTransaction 2 "2024-01-20"; exampleTransaction 1 "2024-01-05"]);
             ("fevereiro 2024", [exampleTransaction 3 "2024-02-01"])].
Proof.
  split; [intros s t H; exact H |].
  split; [vm_compute; reflexivity | vm_compute; discriminate].
Qed.

End GroupingExample.

(** ** Account names *)

Section AccountNames.
Import TransactionList.

(** C7. For every transaction whose [account_id] is the id of no account of
    the list, [getAccountName] returns the sentinel label
    "Conta desconhecida"; as a function it fails on no input. *)
Theorem getAccountName_unknown (accounts : list Account.t)
  (transaction : Transaction.t) :
  (forall acc, acc ∈ accounts ->
               Account.id acc <> Transaction.account_id transaction) ->
  getAccountName accounts (Transaction.account_id transaction)
  = "Conta desconhecida".
Proof.
  intros Hno. unfold getAccountName.
  destruct (List.find _ accounts) as [acc |] eqn:Hfind; [| reflexivity].
  apply List.find_some in Hfind as [Hin Hid].
  apply Z.eqb_eq in Hid. apply list_elem_of_In in Hin.
  by destruct (Hno acc Hin).
Qed.

Lemma getAccountName_unknown_example :
  getAccountName [Account.mk 1 "Carteira" 250; Account.mk 2 "Banco" 1200]
    (Transaction.account_id
       (Transaction.mk 8 "Compra" 10 "saida" "Mercado" 3 "2024-01-05"))
  = "Conta desconhecida".
Proof.
  apply (getAccountName_unknown
           [Account.mk 1 "Carteira" 250; Account.mk 2 "Banco" 1200]
           (Transaction.mk 8 "Compra" 10 "saida" "Mercado" 3 "2024-01-05")).
  intros acc Hin. simpl.
  apply elem_of_cons in Hin as [-> | Hin]; [simpl; lia |].
  apply elem_of_cons in Hin as [-> | Hin]; [simpl; lia |].
  by apply elem_of_nil in Hin.
Defined.

(** A known id resolves to the name of the first account that carries
    it. *)
Lemma getAccountName_known (accounts : list Account.t) (acc : Account.t)
  (before after : list Account.t) :
  accounts = before ++ acc :: after ->
  (forall a, a ∈ before -> Account.id a <> Account.id acc) ->
  getAccountName accounts (Account.id acc) = Account.name acc.
Proof.
  intros -> Hbefore. unfold getAccountName.
  induction before as [| b before IH]; simpl.
  - by rewrite Z.eqb_refl.
  - destruct (Z.eqb_spec (Account.id b) (Account.id acc)) as [Heq | Hne].
    + destruct (Hbefore b); [apply list_elem_of_here | done].
    + apply IH. intros a Ha. apply Hbefore. by apply list_elem_of_further.
Qed.

End AccountNames.

(** ** Chart data *)

Section ChartData.
Import JsDate BalanceChart.
Context {host : Host}.

(** For every sequence of balance-history points, [prepareChartData]
    returns labels and values of the length of the input with, at every
    index [i], the label the code computes for [points[i]] and
    [points[i].balance]: the input order is kept; the empty input yields
    two empty sequences. *)
Theorem prepareChartData_pointwise :
  (forall (s : State),
      xAxis (prepareChartData s) = map labelOf (balanceHistory s) /\
      series (prepareChartData s)
      = map BalanceHistoryPoint.balance (balanceHistory s) /\
      length (xAxis (prepareChartData s)) = length (balanceHistory s) /\
      length (series (prepareChartData s)) = length (balanceHistory s) /\
      forall i : nat,
        xAxis (prepareChartData s) !! i = labelOf <$> balanceHistory s !! i /\
        series (prepareChartData s) !! i
        = BalanceHistoryPoint.balance <$> balanceHistory s !! i) /\
  (forall selected busy,
      prepareChartData (mkState selected [] busy) = mkChartData [] []).
Proof.
  split; [| reflexivity].
  intros s.
  assert (Hx : xAxis (prepareChartData s) = map labelOf (balanceHistory s)).
  { unfold prepareChartData. by destruct (balanceHistory s). }
  assert (Hy : series (prepareChartData s)
               = map BalanceHistoryPoint.balance (balanceHistory s)).
  { unfold prepareChartData. by destruct (balanceHistory s). }
  rewrite Hx, Hy. repeat split.
  - apply length_map.
  - apply length_map.
  - apply list_lookup_fmap.
  - apply list_lookup_fmap.
Qed.

End ChartData.

(** C6. The example of the specification on Brasília time (UTC-3): the
    values are the balances, in order, but each label is the day before
    the date of its point, ["31/12/2023"] for [2024-01-01] and
    ["01/01/2024"] for [2024-01-02], because the date-only string is read
    as midnight UTC and printed in local time; on UTC the labels are the
    dates. *)
Theorem prepareChartData_brasilia :
  @BalanceChart.prepareChartData brasilia
    (BalanceChart.mkState (VNum 1)
       [BalanceHistoryPoint.mk "2024-01-01" 100;
        BalanceHistoryPoint.mk "2024-01-02" 150] false)
  = BalanceChart.mkChartData ["31/12/2023"; "01/01/2024"] [100%Q; 150%Q] /\
  BalanceChart.xAxis
    (@BalanceChart.prepareChartData brasilia
       (BalanceChart.mkState (VNum 1)
          [BalanceHistoryPoint.mk "2024-01-01" 100;
           BalanceHistoryPoint.mk "2024-01-02" 150] false))
  <> map BalanceChart.dateLabel [(2024, 1, 1); (2024, 1, 2)] /\
  @BalanceChart.prepareChartData utc
    (BalanceChart.mkState (VNum 1)
       [BalanceHistoryPoint.mk "2024-01-01" 100;
        BalanceHistoryPoint.mk "2024-01-02" 150] false)
  = BalanceChart.mkChartData
      (map BalanceChart.dateLabel [(2024, 1, 1); (2024, 1, 2)])
      [100%Q; 150%Q].
Proof.
  split; [vm_compute; reflexivity |].
  split; [| vm_compute; reflexivity].
  intros H. vm_compute in H. discriminate H.
Qed.

(** ** The transactions query *)

Section Query.
Import Dashboard.

Lemma appendIfSet_unset f field name params :
  truthy (get f field) = false -> appendIfSet f field name params = params.
Proof. unfold appendIfSet. by intros ->. Qed.

Lemma appendIfSet_set f field name params :
  truthy (get f field) = true ->
  appendIfSet f field name params
  = params ++ [(name, toString (get f field))].
Proof. unfold appendIfSet, URLSearchParams.append. by intros ->. Qed.

(** C5. With filters [{month: 3, year: 2024}] and [transactionType],
    [category] and [accountId] unset or empty, the query string
    [loadTransactions] builds holds exactly the parameters [month=3] and
    [year=2024], in that order, and it is the one the request is sent
    with. *)
Theorem loadTransactions_query (net : string -> Response (list Transaction.t))
  (s : State) :
  get (filters s) "month" = VNum 3 ->
  get (filters s) "year" = VNum 2024 ->
  truthy (get (filters s) "transactionType") = false ->
  truthy (get (filters s) "category") = false ->
  truthy (get (filters s) "accountId") = false ->
  buildParams (filters s) = [("month", "3"); ("year", "2024")] /\
  URLSearchParams.serialize (buildParams (filters s)) = "month=3&year=2024" /\
  head (snd (loadTransactions net s))
  = Some (EFetch "http://localhost:8000/transactions/?month=3&year=2024").
Proof.
  intros Hm Hy Ht Hc Ha.
  assert (Hp : buildParams (filters s) = [("month", "3"); ("year", "2024")]).
  { unfold buildParams.
    rewrite (appendIfSet_unset _ "accountId") by exact Ha.
    rewrite (appendIfSet_unset _ "category") by exact Hc.
    rewrite (appendIfSet_unset _ "transactionType") by exact Ht.
    rewrite (appendIfSet_set _ "year") by (by rewrite Hy).
    rewrite (appendIfSet_set _ "month") by (by rewrite Hm).
    rewrite Hm, Hy. reflexivity. }
  split; [exact Hp |]. split; [by rewrite Hp |].
  unfold loadTransactions, transactionsUrl. simpl filters. rewrite Hp.
  by destruct (net _).
Qed.

Lemma loadTransactions_query_example :
  head (snd (loadTransactions (fun _ => Resolved [])
               (mkState [] [] false (initialFilters 3 2024) false)))
  = Some (EFetch "http://localhost:8000/transactions/?month=3&year=2024").
Proof.
  apply (loadTransactions_query (fun _ => Resolved [])
           (mkState [] [] false (initialFilters 3 2024) false));
    reflexivity.
Defined.

End Query.

(** ** Fetch failures *)

Section FetchFailure.

(** C4 fails as stated for the transactions: after a failed fetch the
    list shown before is still there, not the empty list. *)
Lemma loadTransactions_failure_keeps :
  let t := TransactionList.exampleTransaction 1 "2024-01-05" in
  let s := Dashboard.mkState [t] [] false (Dashboard.initialFilters 3 2024) false in
  Dashboard.transactions (fst (Dashboard.loadTransactions (fun _ => Rejected) s))
  = [t]
  /\ Dashboard.transactions (fst (Dashboard.loadTransactions (fun _ => Rejected) s))
     <> [].
Proof. split; [reflexivity | discriminate]. Qed.

(** C4 (as amended). On a fetch failure the error is caught and logged,
    and the displayed state is left at its previous value for the accounts
    ([loadAccounts]) and for the transactions ([loadTransactions]), and
    reset to the empty list for the balance history
    ([loadBalanceHistory]); the loading flags are cleared. *)
Theorem fetch_failure_policy
  (netA : string -> Response (list Account.t))
  (netT : string -> Response (list Transaction.t))
  (netH : string -> Response (list BalanceHistoryPoint.t))
  (d : Dashboard.State) (c : BalanceChart.State) :
  netA Dashboard.accountsUrl = Rejected ->
  netT (Dashboard.transactionsUrl (Dashboard.filters d)) = Rejected ->
  truthy (BalanceChart.selectedAccount c) = true ->
  netH (BalanceChart.balanceHistoryUrl (BalanceChart.selectedAccount c)) = Rejected ->
  (Dashboard.loadAccounts netA d
   = (d, [EFetch Dashboard.accountsUrl;
          EConsoleError "Erro ao carregar contas:"])) /\
  (Dashboard.loadTransactions netT d
   = (Dashboard.setLoading false d,
      [EFetch (Dashboard.transactionsUrl (Dashboard.filters d));
       EConsoleError "Erro ao carregar transações:"]) /\
   Dashboard.transactions (fst (Dashboard.loadTransactions netT d))
   = Dashboard.transactions d) /\
  (BalanceChart.loadBalanceHistory netH c
   = (BalanceChart.setLoading false (BalanceChart.setBalanceHistory [] c),
      [EFetch (BalanceChart.balanceHistoryUrl (BalanceChart.selectedAccount c));
       EConsoleError "Erro ao carregar histórico de saldo:"]) /\
   BalanceChart.balanceHistory (fst (BalanceChart.loadBalanceHistory netH c))
   = []).
Proof.
  intros HA HT Hsel HH. split; [| split].
  - unfold Dashboard.loadAccounts. by rewrite HA.
  - unfold Dashboard.loadTransactions. simpl Dashboard.filters.
    rewrite HT. by destruct d.
  - unfold BalanceChart.loadBalanceHistory. rewrite Hsel.
    simpl BalanceChart.selectedAccount. rewrite HH. by destruct c.
Qed.

Lemma fetch_failure_policy_example :
  let t := TransactionList.exampleTransaction 1 "2024-01-05" in
  let a := Account.mk 1 "Carteira" 250 in
  let p := BalanceHistoryPoint.mk "2024-01-01" 100 in
  let d := Dashboard.mkState [t] [a] false (Dashboard.initialFilters 3 2024) false in
  let c := BalanceChart.mkState (VNum 1) [p] false in
  Dashboard.accounts (fst (Dashboard.loadAccounts (fun _ => Rejected) d)) = [a] /\
  Dashboard.transactions (fst (Dashboard.loadTransactions (fun _ => Rejected) d)) = [t] /\
  BalanceChart.balanceHistory
    (fst (BalanceChart.loadBalanceHistory (fun _ => Rejected) c)) = [].
Proof.
  intros t a p d c.
  destruct (fetch_failure_policy (fun _ => Rejected) (fun _ => Rejected)
              (fun _ => Rejected) d c eq_refl eq_refl eq_refl eq_refl)
    as (HA & [_ HT] & [_ HH]).
  split; [by rewrite HA |]. split; [exact HT | exact HH].
Defined.

End FetchFailure.

(** ** Filter updates *)

Section Filters.
Import Dashboard.

(** C10. For every filter state and every partial update [newFilters],
    [handleFiltersChange] produces filters in which every field named in
    [newFilters] has its new value and every other field its previous
    one; the rest of the state is untouched. *)
Theorem handleFiltersChange_frame (newFilters : gmap string JsVal) (s : State) :
  (forall field : string,
      filters (handleFiltersChange newFilters s) !! field
      = match newFilters !! field with
        | Some v => Some v
        | None => filters s !! field
        end) /\
  transactions (handleFiltersChange newFilters s) = transactions s /\
  accounts (handleFiltersChange newFilters s) = accounts s /\
  openForm (handleFiltersChange newFilters s) = openForm s /\
  loading (handleFiltersChange newFilters s) = loading s.
Proof.
  split; [| done].
  intros field. unfold handleFiltersChange, spread. simpl.
  rewrite lookup_union. by destruct (newFilters !! field), (filters s !! field).
Qed.

End Filters.

(** * Further properties *)

(** ** The account card *)

Section AccountCard.
Import AccountIndicator.
Local Open Scope Q_scope.


(** The icon and the status caption always tell the same story: rising
    and "Positivo" exactly for a positive balance, falling and "Negativo"
    exactly for a negative one, neutral and "Zerado" exactly at zero. *)
Theorem icon_agrees_with_caption (b : Q) :
  (0 < b /\ getBalanceIcon b = (TrendingUpIcon, "success")
   /\ statusCaption b = "Positivo") \/
  (b < 0 /\ getBalanceIcon b = (TrendingDownIcon, "error")
   /\ statusCaption b = "Negativo") \/
  (b == 0 /\ getBalanceIcon b = (AccountBalanceIcon, "action")
   /\ statusCaption b = "Zerado").
Proof.
  unfold getBalanceIcon, statusCaption.
  destruct (Qlt_le_dec 0 b) as [Hp | Hp]; [by left |].
  destruct (Qlt_le_dec b 0) as [Hn | Hn]; [by right; left |].
  right; right. split; [lra | done].
Qed.

(** The progress bar is always drawn in the palette of the balance
    figure: its [color] followed by [.main] is [getBalanceColor]. *)
Theorem progressColor_matches_getBalanceColor (b : Q) :
  (progressColor b +:+ ".main")%string = getBalanceColor b.
Proof.
  unfold progressColor, getBalanceColor.
  by destruct (Qlt_le_dec 1000 b), (Qlt_le_dec 0 b).
Qed.



End AccountCard.

(** ** The account card, on doubles *)

Section AccountCardDoubles.
Import AccountIndicator.Double.

(** The progress value is a percentage: NaN for a NaN balance only, and
    otherwise a double from [0] to [100]; it is [+0] for every balance up
    to zero. *)
Theorem getProgressValue_percentage (b : spec_float) :
  (b = S754_nan /\ getProgressValue b = S754_nan) \/
  (b <> S754_nan /\
   SFleb (ofZ 0) (getProgressValue b) = true /\
   SFleb (getProgressValue b) (ofZ 100) = true /\
   (SFleb b (ofZ 0) = false \/ getProgressValue b = S754_zero false)).
Proof.
  rewrite getProgressValue_scaled.
  destruct (clamp_range (scaled b)) as [E | [H0 H100]].
  - left. apply (proj1 (scaled_nan b)) in E. rewrite E. split; reflexivity.
  - right.
    assert (b <> S754_nan) as Hb.
    { intros ->. discriminate H0. }
    repeat split; try assumption.
    pose proof (scaled_signed b) as H.
    destruct b as [[] | [] | | [] m e]; try (left; reflexivity);
      try (right; rewrite H; reflexivity).
    right. apply clamp_nonpositive, H.
Qed.

(** A balance figure in the error colour comes with an empty bar (for a
    balance that is a number). *)
Theorem error_color_empty_bar (b : spec_float) :
  b <> S754_nan ->
  getBalanceColor b = "error.main" ->
  getProgressValue b = S754_zero false.
Proof.
  intros Hb Hc. rewrite getProgressValue_scaled.
  pose proof (scaled_signed b) as H.
  destruct b as [[] | [] | | [] m e]; try congruence;
    try (rewrite H; reflexivity); try (apply clamp_nonpositive, H).
  - discriminate Hc.
  - exfalso. revert Hc. unfold getBalanceColor.
    destruct (SFltb (ofZ 1000) _); [discriminate|].
    change (SFltb (ofZ 0) (S754_finite false m e)) with true. discriminate.
Qed.

(** An overdraft of a hundred: error colour, empty bar. *)
Lemma error_color_empty_bar_example :
  ofZ (-100) <> S754_nan /\
  getBalanceColor (ofZ (-100)) = "error.main" /\
  getProgressValue (ofZ (-100)) = S754_zero false.
Proof.
  split; [discriminate |]. split; [reflexivity |].
  apply (error_color_empty_bar (ofZ (-100))); [discriminate | reflexivity].
Defined.

(** The converse fails at the smallest positive double: the quotient
    underflows to zero, so the bar is empty under a figure in the warning
    colour. *)
Lemma getProgressValue_underflow :
  getBalanceColor (S754_finite false 1 (-1074)) = "warning.main" /\
  valid_binary prec emax (S754_finite false 1 (-1074)) = true /\
  getProgressValue (S754_finite false 1 (-1074)) = S754_zero false.
Proof. repeat split; vm_compute; reflexivity. Qed.

End AccountCardDoubles.

(** ** What [groupTransactionsByMonth] returns, in full *)

Section GroupingSpec.
Import JsDate TransactionList.
Context {host : Host}.

(** What the scan and the sort keep, gathered. *)
Lemma grouped_invariants (transactions : list Transaction.t) :
  Forall validDate transactions ->
  exists grouped,
    groupTransactionsByMonth transactions = Return grouped /\
    concat (map snd grouped) ≡ₚ transactions /\
    NoDup (map fst grouped) /\
    labelled grouped.
Proof.
  intros Hv.
  destruct (forEach_groupStep transactions [] Hv)
    as (g & Hrun & Hperm & Hnd & Hl); [constructor | constructor |].
  exists (map (fun '(month, ts) => (month, sort ts)) g).
  unfold groupTransactionsByMonth. rewrite Hrun.
  split; [done |]. split; [| split].
  - by rewrite sorted_groups_concat, Hperm.
  - by rewrite sorted_groups_keys.
  - by apply sorted_groups_labelled.
Qed.

Lemma monthLabel_Return t k : monthKeyOf t = Return k -> monthLabel t = Some k.
Proof. unfold monthLabel. by intros ->. Qed.

Lemma members_push k k' t grouped :
  members k (push k' t grouped)
  = if decide (k = k') then members k grouped ++ [t] else members k grouped.
Proof.
  induction grouped as [| [k0 ts] rest IH]; simpl.
  - destruct (String.eqb_spec k' k) as [-> | Hne].
    + by rewrite decide_True.
    + by rewrite decide_False.
  - destruct (String.eqb_spec k0 k') as [-> | Hne]; simpl.
    + destruct (String.eqb_spec k' k) as [-> | Hne'].
      * by rewrite decide_True.
      * by rewrite decide_False.
    + rewrite IH. destruct (String.eqb_spec k0 k) as [-> | Hne'];
        [by rewrite decide_False | done].
Qed.

(** After the scan, a key holds what it held before followed by the
    scanned transactions of that label, in input order. *)
Lemma scan_members transactions : forall grouped grouped' k,
  forEach groupStep transactions grouped = Return grouped' ->
  members k grouped'
  = members k grouped ++ filter (fun t => monthLabel t = Some k) transactions.
Proof.
  induction transactions as [| t ts IH]; intros grouped grouped' k Hrun;
    cbn [forEach] in Hrun.
  - injection Hrun as <-. by rewrite app_nil_r.
  - destruct (monthKeyOf t) as [k' | e] eqn:Hk.
    2: { by rewrite (groupStep_Throw grouped t e Hk) in Hrun. }
    rewrite (groupStep_Return grouped t k' Hk) in Hrun. simpl in Hrun.
    rewrite (IH _ _ k Hrun), members_push, filter_cons.
    rewrite (monthLabel_Return t k' Hk).
    destruct (decide (k = k')) as [-> | Hne].
    + rewrite decide_True by done. by rewrite <- app_assoc.
    + rewrite decide_False by congruence. done.
Qed.

(** After the scan, the keys are the former ones followed by the new
    labels in the order they were first met. *)
Lemma scan_keys transactions : forall grouped grouped',
  forEach groupStep transactions grouped = Return grouped' ->
  map fst grouped'
  = map fst grouped
    ++ filter (fun k => k ∉ map fst grouped) (firstSeen (omap monthLabel transactions)).
Proof.
  induction transactions as [| t ts IH]; intros grouped grouped' Hrun;
    cbn [forEach] in Hrun.
  - injection Hrun as <-. by rewrite app_nil_r.
  - destruct (monthKeyOf t) as [k | e] eqn:Hk.
    2: { by rewrite (groupStep_Throw grouped t e Hk) in Hrun. }
    rewrite (groupStep_Return grouped t k Hk) in Hrun. simpl in Hrun.
    rewrite (IH _ _ Hrun), push_keys. simpl.
    rewrite (monthLabel_Return t k Hk). cbn [firstSeen].
    rewrite filter_cons, list_filter_filter.
    destruct (decide (k ∈ map fst grouped)) as [Hin | Hin].
    + rewrite decide_False by (intros Hn; by apply Hn).
      f_equal. apply list_filter_iff. intros x. split; [| tauto].
      intros Hx. split; [done |]. by intros ->.
    + rewrite decide_True by done. rewrite <- app_assoc. simpl.
      do 2 f_equal. apply list_filter_iff. intros x.
      rewrite elem_of_app, list_elem_of_singleton. tauto.
Qed.

Lemma filter_all {A} (P : A -> Prop) `{forall x, Decision (P x)} (l : list A) :
  (forall x, P x) -> filter P l = l.
Proof.
  intros HP. induction l as [| x l IH]; [done |].
  by rewrite filter_cons_True, IH.
Qed.

Lemma Forall_filter_keep {A} (P Q : A -> Prop) `{forall x, Decision (P x)}
  (l : list A) : Forall Q l -> Forall Q (filter P l).
Proof.
  rewrite !Forall_forall. intros HQ x [_ Hx]%list_elem_of_filter. by apply HQ.
Qed.

(** An object with distinct keys is determined by its keys and what each
    of them holds. *)
Lemma grouped_eta (grouped : Grouped) :
  NoDup (map fst grouped) ->
  grouped = map (fun k => (k, members k grouped)) (map fst grouped).
Proof.
  induction grouped as [| [k ts] rest IH]; simpl; intros Hnd; [done |].
  apply NoDup_cons in Hnd as [Hk Hnd].
  rewrite String.eqb_refl. f_equal.
  rewrite (IH Hnd) at 1. apply map_ext_in. intros k' Hin.
  destruct (String.eqb_spec k k') as [-> | Hne]; [| done].
  by apply list_elem_of_In in Hin.
Qed.

(** The groups, their order and their contents, read off the scan. *)
Lemma grouped_by_label (transactions : list Transaction.t) :
  Forall validDate transactions ->
  groupTransactionsByMonth transactions
  = Return (map (fun k => (k, sort (filter (fun t => monthLabel t = Some k)
                                            transactions)))
                (firstSeen (omap monthLabel transactions))).
Proof.
  intros Hv.
  destruct (forEach_groupStep transactions [] Hv) as (g & Hrun & _ & Hnd & _);
    [constructor | constructor |].
  unfold groupTransactionsByMonth. rewrite Hrun. simpl. f_equal.
  assert (Hkeys : map fst g = firstSeen (omap monthLabel transactions)).
  { rewrite (scan_keys _ _ _ Hrun). simpl.
    by rewrite filter_all by (intros x; apply not_elem_of_nil). }
  etransitivity; [exact (f_equal (map _) (grouped_eta g Hnd)) |].
  rewrite map_map, Hkeys. apply map_ext. intros k. simpl.
  by rewrite (scan_members _ _ _ k Hrun).
Qed.

(** The whole result: one group per month label, in the order the labels
    are first met in the input, each holding the input's transactions of
    that label, sorted. *)
Theorem groupTransactionsByMonth_spec (transactions : list Transaction.t) :
  Forall validDate transactions ->
  groupTransactionsByMonth transactions
  = Return (map (fun k => (k, sort (filter (fun t => monthLabel t = Some k)
                                            transactions)))
                (firstSeen (omap monthLabel transactions))).
Proof.
  intros Hv.
  destruct (forEach_groupStep transactions [] Hv) as (g & Hrun & _ & Hnd & _);
    [constructor | constructor |].
  unfold groupTransactionsByMonth. rewrite Hrun. simpl. f_equal.
  assert (Hkeys : map fst g = firstSeen (omap monthLabel transactions)).
  { rewrite (scan_keys _ _ _ Hrun). simpl.
    by rewrite filter_all by (intros x; apply not_elem_of_nil). }
  etransitivity; [exact (f_equal (map _) (grouped_eta g Hnd)) |].
  rewrite map_map, Hkeys. apply map_ext. intros k. simpl.
  by rewrite (scan_members _ _ _ k Hrun).
Qed.

(** When the scan throws, it is the [RangeError] of an invalid date. *)
Lemma forEach_groupStep_Throw transactions : forall grouped e,
  forEach groupStep transactions grouped = Throw e ->
  e = RangeError "Invalid time value" /\
  Exists (fun t => ~ validDate t) transactions.
Proof.
  induction transactions as [| t ts IH]; intros grouped e Hrun;
    cbn [forEach] in Hrun; [discriminate |].
  destruct (monthKeyOf t) as [k | e'] eqn:Hk.
  - rewrite (groupStep_Return grouped t k Hk) in Hrun. simpl in Hrun.
    destruct (IH _ _ Hrun) as [-> Hex]. split; [done | by apply Exists_cons_tl].
  - rewrite (groupStep_Throw grouped t e' Hk) in Hrun. simpl in Hrun.
    injection Hrun as <-. unfold monthKeyOf, validDate in *.
    destruct (newDate (Transaction.date t)) as [v |] eqn:Hd; [discriminate |].
    simpl in Hk. injection Hk as <-. split; [done |].
    apply Exists_cons_hd. rewrite Hd. by intros [v Hv].
Qed.

(** The two outcomes of the grouping. *)
Lemma grouped_or_RangeError
  (transactions : list Transaction.t) :
  (Forall validDate transactions /\
   exists grouped, groupTransactionsByMonth transactions = Return grouped) \/
  (Exists (fun t => ~ validDate t) transactions /\
   groupTransactionsByMonth transactions = Throw (RangeError "Invalid time value")).
Proof.
  unfold groupTransactionsByMonth.
  destruct (forEach groupStep transactions []) as [g | e] eqn:Hrun.
  - left. split; [by eapply forEach_groupStep_Return | simpl; eauto].
  - right. destruct (forEach_groupStep_Throw _ _ _ Hrun) as [-> Hex]. by split.
Qed.

(** Either every date is valid and the function returns, or some date is
    invalid and it throws the [RangeError] of [format]: one bad date
    loses the whole list. *)
Theorem groupTransactionsByMonth_returns_or_throws
  (transactions : list Transaction.t) :
  (Forall validDate transactions /\
   exists grouped, groupTransactionsByMonth transactions = Return grouped) \/
  (Exists (fun t => ~ validDate t) transactions /\
   groupTransactionsByMonth transactions = Throw (RangeError "Invalid time value")).
Proof.
  unfold groupTransactionsByMonth.
  destruct (forEach groupStep transactions []) as [g | e] eqn:Hrun.
  - left. split; [by eapply forEach_groupStep_Return | simpl; eauto].
  - right. destruct (forEach_groupStep_Throw _ _ _ Hrun) as [-> Hex]. by split.
Qed.

Lemma firstSeen_elem (k : string) (l : list string) : k ∈ firstSeen l <-> k ∈ l.
Proof.
  induction l as [| k' l IH]; simpl; [done |].
  rewrite !elem_of_cons, list_elem_of_filter, IH.
  destruct (decide (k = k')); tauto.
Qed.

Lemma firstSeen_length (l : list string) : (length (firstSeen l) <= length l)%nat.
Proof.
  induction l as [| k l IH]; cbn [firstSeen length]; [done |].
  apply le_n_S. etransitivity; [apply length_filter | exact IH].
Qed.

Lemma omap_length_le {A B} (f : A -> option B) (l : list A) :
  (length (omap f l) <= length l)%nat.
Proof.
  induction l as [| x l IH]; [done |]. cbn. destruct (f x); cbn; lia.
Qed.

Lemma monthLabel_valid t k : monthLabel t = Some k -> validDate t.
Proof.
  unfold monthLabel. destruct (monthKeyOf t) eqn:Hk; [| discriminate].
  intros _. by eapply monthKeyOf_Return.
Qed.

(** Groups are created by a push, so none is empty. *)
Lemma grouped_nonempty
  (transactions : list Transaction.t) (grouped : Grouped) :
  groupTransactionsByMonth transactions = Return grouped ->
  Forall (fun g => snd g <> []) grouped /\
  (length grouped <= length transactions)%nat /\
  (grouped = [] <-> transactions = []).
Proof.
  intros Hrun.
  pose proof (groupTransactionsByMonth_Return_valid _ _ Hrun) as Hv.
  rewrite (grouped_by_label _ Hv) in Hrun. injection Hrun as <-.
  split; [| split].
  - apply Forall_map, Forall_forall. intros k Hk. simpl.
    apply firstSeen_elem, list_elem_of_omap in Hk as (t & Ht & Hl).
    intros Hnil.
    assert (Hin : t ∈ sort (filter (fun t => monthLabel t = Some k) transactions)).
    { rewrite sort_Permutation. by apply list_elem_of_filter. }
    rewrite Hnil in Hin. by apply elem_of_nil in Hin.
  - rewrite length_map.
    etransitivity; [apply firstSeen_length |]. apply omap_length_le.
  - split.
    + destruct transactions as [| t ts]; [done |].
      apply Forall_cons in Hv as [Ht _].
      destruct (monthKeyOf_valid t Ht) as [k Hk].
      simpl. by rewrite (monthLabel_Return t k Hk).
    + by intros ->.
Qed.

(** No group is ever empty, there are at most as many groups as
    transactions, and no groups only for no transactions. *)
Theorem groupTransactionsByMonth_groups_nonempty
  (transactions : list Transaction.t) (grouped : Grouped) :
  groupTransactionsByMonth transactions = Return grouped ->
  Forall (fun g => snd g <> []) grouped /\
  (length grouped <= length transactions)%nat /\
  (grouped = [] <-> transactions = []).
Proof.
  intros Hrun.
  pose proof (groupTransactionsByMonth_Return_valid _ _ Hrun) as Hv.
  rewrite (grouped_by_label _ Hv) in Hrun. injection Hrun as <-.
  split; [| split].
  - apply Forall_map, Forall_forall. intros k Hk. simpl.
    apply firstSeen_elem, list_elem_of_omap in Hk as (t & Ht & Hl).
    intros Hnil.
    assert (Hin : t ∈ sort (filter (fun t => monthLabel t = Some k) transactions)).
    { rewrite sort_Permutation. by apply list_elem_of_filter. }
    rewrite Hnil in Hin. by apply elem_of_nil in Hin.
  - rewrite length_map.
    etransitivity; [apply firstSeen_length |]. apply omap_length_le.
  - split.
    + destruct transactions as [| t ts]; [done |].
      apply Forall_cons in Hv as [Ht _].
      destruct (monthKeyOf_valid t Ht) as [k Hk].
      simpl. by rewrite (monthLabel_Return t k Hk).
    + by intros ->.
Qed.

End GroupingSpec.

Lemma groupTransactionsByMonth_spec_example :
  @TransactionList.groupTransactionsByMonth utc
    [TransactionList.exampleTransaction 1 "2024-02-03"; TransactionList.exampleTransaction 2 "2024-01-20";
     TransactionList.exampleTransaction 3 "2024-02-11"]
  = Return [("fevereiro 2024",
             [TransactionList.exampleTransaction 3 "2024-02-11"; TransactionList.exampleTransaction 1 "2024-02-03"]);
            ("janeiro 2024", [TransactionList.exampleTransaction 2 "2024-01-20"])].
Proof.
  rewrite (@groupTransactionsByMonth_spec utc); [reflexivity |].
  repeat constructor; vm_compute; eauto.
Defined.

Lemma groupTransactionsByMonth_groups_nonempty_example :
  Forall (fun g : string * list Transaction.t => snd g <> [])
    [("fevereiro 2024",
      [TransactionList.exampleTransaction 3 "2024-02-11";
       TransactionList.exampleTransaction 1 "2024-02-03"]);
     ("janeiro 2024", [TransactionList.exampleTransaction 2 "2024-01-20"])] /\
  (2 <= 3)%nat.
Proof.
  destruct (@groupTransactionsByMonth_groups_nonempty utc
              [TransactionList.exampleTransaction 1 "2024-02-03";
               TransactionList.exampleTransaction 2 "2024-01-20";
               TransactionList.exampleTransaction 3 "2024-02-11"]
              _ eq_refl) as (Hne & Hlen & _).
  split; [exact Hne | exact Hlen].
Defined.

(** ** Order inside a group *)

Section GroupingOrder.
Import JsDate TransactionList.
Context {host : Host}.

(** Inserting a transaction moves it past strictly more recent ones only,
    so the transactions of any one instant keep their order. *)
Lemma insert_same_instant x l (instant : Z) :
  validDate x -> Forall validDate l ->
  filter (fun t => timeOf t = instant) (insert x l)
  = filter (fun t => timeOf t = instant) (x :: l).
Proof.
  intros Hx. induction 1 as [| y l Hy Hl IH]; [done |].
  cbn [insert]. rewrite (sortsAfter_valid x y Hx Hy).
  destruct (Z.ltb_spec (timeOf x) (timeOf y)) as [Hlt | Hge]; [| done].
  rewrite filter_cons, IH, !filter_cons.
  destruct (decide (timeOf y = instant)), (decide (timeOf x = instant)); try done. lia.
Qed.

Lemma sort_same_instant l (instant : Z) :
  Forall validDate l ->
  filter (fun t => timeOf t = instant) (sort l) = filter (fun t => timeOf t = instant) l.
Proof.
  induction 1 as [| x l Hx Hl IH]; [done |].
  cbn [sort foldr]. fold (sort l).
  rewrite insert_same_instant by (done || by apply sort_valid).
  by rewrite !filter_cons, IH.
Qed.

(** Whatever [groupTransactionsByMonth] returns, each group lists its
    transactions from the most recent to the oldest. *)
Theorem groupTransactionsByMonth_descending
  (transactions : list Transaction.t) (grouped : Grouped) :
  groupTransactionsByMonth transactions = Return grouped ->
  Forall (fun g => Sorted notOlder (snd g)) grouped.
Proof.
  intros Hrun.
  pose proof (groupTransactionsByMonth_Return_valid _ _ Hrun) as Hv.
  rewrite (grouped_by_label _ Hv) in Hrun. injection Hrun as <-.
  apply Forall_map, Forall_forall. intros k _. simpl.
  apply sort_descending. by apply Forall_filter_keep.
Qed.

(** The sort is stable: within a group, the transactions that share an
    instant stand in the order they had in the input. *)
Theorem groupTransactionsByMonth_stable
  (transactions : list Transaction.t) (grouped : Grouped) (instant : Z) :
  groupTransactionsByMonth transactions = Return grouped ->
  Forall (fun g =>
            filter (fun t => timeOf t = instant) (snd g)
            = filter (fun t => timeOf t = instant /\ monthLabel t = Some (fst g))
                     transactions) grouped.
Proof.
  intros Hrun.
  pose proof (groupTransactionsByMonth_Return_valid _ _ Hrun) as Hv.
  rewrite (grouped_by_label _ Hv) in Hrun. injection Hrun as <-.
  apply Forall_map, Forall_forall. intros k _. simpl.
  rewrite sort_same_instant by (by apply Forall_filter_keep).
  apply list_filter_filter.
Qed.

End GroupingOrder.

Lemma groupTransactionsByMonth_descending_example :
  Forall (fun g => Sorted (@TransactionList.notOlder utc) (snd g))
    [("fevereiro 2024",
      [TransactionList.exampleTransaction 3 "2024-02-11";
       TransactionList.exampleTransaction 1 "2024-02-03"]);
     ("janeiro 2024", [TransactionList.exampleTransaction 2 "2024-01-20"])].
Proof.
  apply (@groupTransactionsByMonth_descending utc
           [TransactionList.exampleTransaction 1 "2024-02-03";
            TransactionList.exampleTransaction 2 "2024-01-20";
            TransactionList.exampleTransaction 3 "2024-02-11"]).
  reflexivity.
Defined.

(** Two transactions of the same day keep their input order. *)
Lemma groupTransactionsByMonth_stable_example :
  Forall (fun g =>
            filter (fun t => @TransactionList.timeOf utc t = 1705708800000) (snd g)
            = filter (fun t => @TransactionList.timeOf utc t = 1705708800000
                               /\ @TransactionList.monthLabel utc t = Some (fst g))
                [TransactionList.exampleTransaction 1 "2024-01-20";
                 TransactionList.exampleTransaction 2 "2024-01-25";
                 TransactionList.exampleTransaction 3 "2024-01-20"])
    [("janeiro 2024",
      [TransactionList.exampleTransaction 2 "2024-01-25";
       TransactionList.exampleTransaction 1 "2024-01-20";
       TransactionList.exampleTransaction 3 "2024-01-20"])].
Proof.
  apply (@groupTransactionsByMonth_stable utc
           [TransactionList.exampleTransaction 1 "2024-01-20";
            TransactionList.exampleTransaction 2 "2024-01-25";
            TransactionList.exampleTransaction 3 "2024-01-20"]).
  reflexivity.
Defined.

(** ** The query parameters in general *)

Section QueryParameters.
Import Dashboard.

(** [buildParams] visits the table in order and keeps the fields that are
    set. *)
Lemma buildParams_table (f : gmap string JsVal) :
  buildParams f
  = omap (fun p => if truthy (get f (fst p))
                   then Some (snd p, toString (get f (fst p))) else None)
         paramTable.
Proof.
  unfold buildParams, appendIfSet, URLSearchParams.append, paramTable.
  cbn [omap list_omap fst snd].
  by destruct (truthy (get f "month")), (truthy (get f "year")),
       (truthy (get f "transactionType")), (truthy (get f "category")),
       (truthy (get f "accountId")).
Qed.

Lemma Z_to_string_nonempty (n : Z) : Z_to_string n <> "".
Proof.
  unfold Z_to_string, NilZero.string_of_int, NilZero.string_of_uint.
  destruct (Z.to_int n) as [d | d]; [| discriminate].
  by destruct d.
Qed.

Lemma toString_truthy_nonempty (v : JsVal) :
  truthy v = true -> toString v <> "".
Proof.
  destruct v as [| n | s]; simpl; [discriminate | |].
  - intros _. apply Z_to_string_nonempty.
  - by destruct s.
Qed.

(** A parameter is sent exactly for the fields that hold a truthy value
    (a month or year of [0] is dropped like an empty string), with that
    value; so no parameter is ever sent empty, none twice, and the names
    keep the order month, year, transaction_type, category, account_id. *)
Theorem buildParams_sent (f : gmap string JsVal) :
  (forall name value,
      (name, value) ∈ buildParams f <->
      exists field, (field, name) ∈ paramTable /\
                    truthy (get f field) = true /\
                    value = toString (get f field)) /\
  Forall (fun p => snd p <> "") (buildParams f) /\
  NoDup (map fst (buildParams f)) /\
  sublist (map fst (buildParams f)) (map snd paramTable).
Proof.
  rewrite buildParams_table. split; [| split; [| split]].
  - intros name value. rewrite list_elem_of_omap. split.
    + intros ([field name'] & Hin & Hsome). simpl in Hsome.
      destruct (truthy (get f field)) eqn:Ht; [| discriminate].
      injection Hsome as <- <-. eauto.
    + intros (field & Hin & Ht & ->). exists (field, name). simpl.
      by rewrite Ht.
  - apply Forall_forall. intros [name value] Hin. simpl.
    apply list_elem_of_omap in Hin as ([field name'] & _ & Hsome).
    simpl in Hsome. destruct (truthy (get f field)) eqn:Ht; [| discriminate].
    injection Hsome as <- <-. by apply toString_truthy_nonempty.
  - unfold paramTable. cbn [omap list_omap fst snd].
    destruct (truthy (get f "month")), (truthy (get f "year")),
      (truthy (get f "transactionType")), (truthy (get f "category")),
      (truthy (get f "accountId")); cbn;
      repeat (apply NoDup_cons; split;
              [intros Hin;
               repeat (apply elem_of_cons in Hin as [Hin | Hin]; [discriminate |]);
               by apply elem_of_nil in Hin |]);
      apply NoDup_nil_2.
  - unfold paramTable. cbn [omap list_omap fst snd].
    destruct (truthy (get f "month")), (truthy (get f "year")),
      (truthy (get f "transactionType")), (truthy (get f "category")),
      (truthy (get f "accountId")); cbn;
      repeat (first [apply sublist_nil | apply sublist_skip | apply sublist_cons]).
Qed.

Lemma append_cons (x : ascii) (a b : string) :
  String x a +:+ b = String x (a +:+ b).
Proof. reflexivity. Qed.

Lemma append_assoc (a b c : string) : (a +:+ b) +:+ c = a +:+ (b +:+ c).
Proof.
  induction a as [| x a IH]; [done |]. by rewrite !append_cons, IH.
Qed.

Lemma encode_app (a b : string) :
  URLSearchParams.encode (a +:+ b)
  = URLSearchParams.encode a +:+ URLSearchParams.encode b.
Proof.
  induction a as [| c a IH]; [done |].
  rewrite append_cons. cbn [URLSearchParams.encode].
  by rewrite IH, append_assoc.
Qed.

Lemma encode_uint (d : Decimal.uint) :
  URLSearchParams.encode (NilEmpty.string_of_uint d) = NilEmpty.string_of_uint d.
Proof. induction d; simpl; [done | by rewrite IHd ..]. Qed.

(** A number is sent as it prints: digits and the minus sign are not
    escaped. *)
Lemma encode_Z_to_string (n : Z) :
  URLSearchParams.encode (Z_to_string n) = Z_to_string n.
Proof.
  unfold Z_to_string, NilZero.string_of_int, NilZero.string_of_uint.
  destruct (Z.to_int n) as [d | d].
  - destruct d; try done; apply encode_uint.
  - change (String "-" ?s) with ("-" +:+ s). rewrite encode_app.
    f_equal. destruct d; try done; apply encode_uint.
Qed.

(** The first request of a session: with the initial filters of a month
    and a year (neither of them [0]), the transactions are asked for with
    exactly [month] and [year]. *)
Theorem transactionsUrl_initialFilters (month year : Z) :
  month <> 0 -> year <> 0 ->
  transactionsUrl (initialFilters month year)
  = "http://localhost:8000/transactions/?month=" +:+ Z_to_string month
    +:+ "&year=" +:+ Z_to_string year.
Proof.
  intros Hm Hy. unfold transactionsUrl.
  rewrite buildParams_table. unfold paramTable. cbn [omap list_omap fst snd].
  change (get (initialFilters month year) "month") with (VNum month).
  change (get (initialFilters month year) "year") with (VNum year).
  change (get (initialFilters month year) "transactionType") with (VStr "").
  change (get (initialFilters month year) "category") with (VStr "").
  change (get (initialFilters month year) "accountId") with (VStr "").
  cbn [truthy String.eqb negb toString].
  rewrite (proj2 (Z.eqb_neq month 0) Hm), (proj2 (Z.eqb_neq year 0) Hy).
  cbn [negb URLSearchParams.serialize].
  change (URLSearchParams.encode "month") with "month".
  change (URLSearchParams.encode "year") with "year".
  by rewrite !encode_Z_to_string.
Qed.

Lemma transactionsUrl_initialFilters_example :
  transactionsUrl (initialFilters 11 2026)
  = "http://localhost:8000/transactions/?month=11&year=2026".
Proof.
  apply (transactionsUrl_initialFilters 11 2026); discriminate.
Defined.

Lemma occurrences_app (c : ascii) (a b : string) :
  URLSearchParams.occurrences c (a +:+ b)
  = (URLSearchParams.occurrences c a + URLSearchParams.occurrences c b)%nat.
Proof.
  induction a as [| c' a IH]; [done |].
  rewrite append_cons. cbn [URLSearchParams.occurrences]. rewrite IH. lia.
Qed.

Lemma encodeByte_separators (c : ascii) :
  URLSearchParams.occurrences "&" (URLSearchParams.encodeByte c) = 0%nat /\
  URLSearchParams.occurrences "=" (URLSearchParams.encodeByte c) = 0%nat.
Proof. destruct c as [[|] [|] [|] [|] [|] [|] [|] [|]]; by vm_compute. Qed.

Lemma encode_separators (s : string) :
  URLSearchParams.occurrences "&" (URLSearchParams.encode s) = 0%nat /\
  URLSearchParams.occurrences "=" (URLSearchParams.encode s) = 0%nat.
Proof.
  induction s as [| c s [IH1 IH2]]; [done |].
  cbn [URLSearchParams.encode]. rewrite !occurrences_app, IH1, IH2.
  by destruct (encodeByte_separators c) as [-> ->].
Qed.

(** Whatever the filters hold, the query string has one [=] for each
    parameter and one [&] between two parameters: a category such as
    [a&b=c] cannot add or split a parameter. *)
Theorem query_string_separators (f : gmap string JsVal) :
  URLSearchParams.occurrences "=" (URLSearchParams.serialize (buildParams f))
  = length (buildParams f) /\
  URLSearchParams.occurrences "&" (URLSearchParams.serialize (buildParams f))
  = (length (buildParams f) - 1)%nat.
Proof.
  generalize (buildParams f). intros params.
  induction params as [| [n v] rest [IHe IHa]]; [done |].
  destruct (encode_separators n) as [Hna Hne].
  destruct (encode_separators v) as [Hva Hve].
  destruct rest as [| p rest].
  - cbn [URLSearchParams.serialize length].
    rewrite !occurrences_app, Hna, Hne, Hva, Hve. done.
  - cbn [URLSearchParams.serialize] in *. destruct p as [n' v'].
    rewrite !occurrences_app, Hna, Hne, Hva, Hve, IHe, IHa. simpl. lia.
Qed.

End QueryParameters.

(** ** Successive filter changes *)

Section FilterUpdates.
Import Dashboard.

Lemma get_spread (f n : gmap string JsVal) (k : string) :
  get (spread f n) k = match n !! k with Some v => v | None => get f k end.
Proof.
  unfold get, spread. rewrite lookup_union.
  by destruct (n !! k), (f !! k).
Qed.

Lemma setFilters_filters (s : State) : setFilters (filters s) s = s.
Proof. by destruct s. Qed.

(** Filter changes accumulate: two changes in a row are the change by
    both updates merged, the later one winning; repeating a change or
    changing nothing changes nothing. *)
Theorem handleFiltersChange_compose (n1 n2 : gmap string JsVal) (s : State) :
  handleFiltersChange n2 (handleFiltersChange n1 s)
  = handleFiltersChange (spread n1 n2) s /\
  handleFiltersChange n1 (handleFiltersChange n1 s) = handleFiltersChange n1 s /\
  handleFiltersChange ∅ s = s.
Proof.
  unfold handleFiltersChange, spread, setFilters. simpl. repeat split.
  - by rewrite (assoc_L (∪)).
  - by rewrite (assoc_L (∪)), (idemp_L (∪)).
  - rewrite (left_id_L ∅ (∪)). by destruct s.
Qed.

(** Changing one filter field changes at most its own query parameter:
    the other parameters stay as they were, the field's parameter carries
    the new value when that is truthy and is absent otherwise (so setting
    a field to the empty string removes it from the query). *)
Theorem handleFiltersChange_one_parameter (field name : string) (v : JsVal)
  (s : State) :
  (field, name) ∈ paramTable ->
  filter (fun p => fst p <> name)
         (buildParams (filters (handleFiltersChange {[ field := v ]} s)))
  = filter (fun p => fst p <> name) (buildParams (filters s)) /\
  filter (fun p => fst p = name)
         (buildParams (filters (handleFiltersChange {[ field := v ]} s)))
  = if truthy v then [(name, toString v)] else [].
Proof.
  intros Hin. unfold handleFiltersChange. simpl filters.
  rewrite !buildParams_table. unfold paramTable in *.
  cbn [omap list_omap fst snd]. rewrite !get_spread.
  generalize (get (filters s) "month") (get (filters s) "year")
    (get (filters s) "transactionType") (get (filters s) "category")
    (get (filters s) "accountId").
  intros v1 v2 v3 v4 v5.
  repeat (apply elem_of_cons in Hin as [Hin | Hin];
          [injection Hin as -> ->;
           repeat (rewrite lookup_singleton_eq
                   || (rewrite lookup_singleton_ne by done));
           destruct (truthy v), (truthy v1), (truthy v2), (truthy v3),
             (truthy v4), (truthy v5); split; reflexivity |]).
  by apply elem_of_nil in Hin.
Qed.

Lemma handleFiltersChange_one_parameter_example :
  filter (fun p => fst p <> "category")
    (buildParams (filters (handleFiltersChange {[ "category" := VStr "Mercado" ]}
                             (mkState [] [] false (initialFilters 3 2024) false))))
  = filter (fun p => fst p <> "category") (buildParams (initialFilters 3 2024)) /\
  filter (fun p => fst p = "category")
    (buildParams (filters (handleFiltersChange {[ "category" := VStr "Mercado" ]}
                             (mkState [] [] false (initialFilters 3 2024) false))))
  = [("category", "Mercado")].
Proof.
  apply (handleFiltersChange_one_parameter "category" "category"
           (VStr "Mercado") (mkState [] [] false (initialFilters 3 2024) false)).
  unfold paramTable. do 3 apply list_elem_of_further. apply list_elem_of_here.
Defined.

End FilterUpdates.

(** ** The two loaders together *)

Section Loaders.
Import Dashboard.

(** What a loader leaves alone: [loadAccounts] writes the accounts only;
    [loadTransactions] writes the transactions and the loading flag only,
    and always leaves the flag cleared, whether the fetch succeeded or
    not. *)
Theorem loaders_frame (netA : string -> Response (list Account.t))
  (netT : string -> Response (list Transaction.t)) (s : State) :
  (transactions (fst (loadAccounts netA s)) = transactions s /\
   openForm (fst (loadAccounts netA s)) = openForm s /\
   filters (fst (loadAccounts netA s)) = filters s /\
   loading (fst (loadAccounts netA s)) = loading s) /\
  (accounts (fst (loadTransactions netT s)) = accounts s /\
   openForm (fst (loadTransactions netT s)) = openForm s /\
   filters (fst (loadTransactions netT s)) = filters s /\
   loading (fst (loadTransactions netT s)) = false).
Proof.
  unfold loadAccounts, loadTransactions. simpl filters.
  by destruct (netA accountsUrl), (netT (transactionsUrl (filters s))).
Qed.

(** The loaders do not interfere: whichever of the two responses is
    handled first, the page ends in the same state. *)
Theorem loaders_commute (netA : string -> Response (list Account.t))
  (netT : string -> Response (list Transaction.t)) (s : State) :
  fst (loadAccounts netA (fst (loadTransactions netT s)))
  = fst (loadTransactions netT (fst (loadAccounts netA s))).
Proof.
  unfold loadAccounts, loadTransactions. simpl filters.
  destruct (netA accountsUrl) eqn:HA; simpl;
    by destruct (netT (transactionsUrl (filters s))).
Qed.

(** After a transaction is created the form is closed, the filters are
    untouched, the loading flag is cleared, and each of the two lists is
    the fresh one when its fetch succeeded and the previous one when it
    failed. *)
Theorem handleTransactionCreated_state
  (netT : string -> Response (list Transaction.t))
  (netA : string -> Response (list Account.t)) (s : State) :
  let s' := fst (handleTransactionCreated netT netA s) in
  openForm s' = false /\
  filters s' = filters s /\
  loading s' = false /\
  transactions s'
  = match netT (transactionsUrl (filters s)) with
    | Resolved data => data
    | Rejected => transactions s
    end /\
  accounts s'
  = match netA accountsUrl with
    | Resolved data => data
    | Rejected => accounts s
    end.
Proof.
  unfold handleTransactionCreated, loadAccounts, loadTransactions.
  simpl filters.
  by destruct (netT (transactionsUrl (filters s))), (netA accountsUrl).
Qed.

(** Creating a transaction reloads the page as a mount or a filter change
    does, and closes the form: the order in which the two loaders are
    started makes no difference to the state. *)
Theorem handleTransactionCreated_reloads
  (netT : string -> Response (list Transaction.t))
  (netA : string -> Response (list Account.t)) (s : State) :
  fst (handleTransactionCreated netT netA s)
  = setOpenForm false (fst (loadInitialData netA netT s)).
Proof.
  unfold handleTransactionCreated, loadInitialData, loadAccounts,
    loadTransactions.
  destruct (netA accountsUrl) as [dataA |]; cbn [filters setAccounts
    setOpenForm setLoading setTransactions fst snd];
    destruct (netT (transactionsUrl (filters s))) as [dataT |]; reflexivity.
Qed.

End Loaders.

(** ** [parseInt] on the print of an integer *)

Section ParseIntFacts.
Import ParseInt.

(** Reading decimal digits continues the accumulator as [Pos.of_uint_acc]
    does. *)
Lemma digitsPrefix_acc (d : Decimal.uint) : forall acc : positive,
  digitsPrefix 10 (NilEmpty.string_of_uint d) (Some (Z.pos acc))
  = Some (Z.pos (Pos.of_uint_acc d acc)).
Proof.
  induction d; intros acc; [done | ..];
    cbn [NilEmpty.string_of_uint digitsPrefix Pos.of_uint_acc];
    change (digitValue 10 _) with (Some 0) || change (digitValue 10 _) with (Some 1)
    || change (digitValue 10 _) with (Some 2) || change (digitValue 10 _) with (Some 3)
    || change (digitValue 10 _) with (Some 4) || change (digitValue 10 _) with (Some 5)
    || change (digitValue 10 _) with (Some 6) || change (digitValue 10 _) with (Some 7)
    || change (digitValue 10 _) with (Some 8) || change (digitValue 10 _) with (Some 9);
    cbn [default]; unfold id; rewrite <- IHd; do 2 f_equal; lia.
Qed.

Lemma digitsPrefix_zero (d : Decimal.uint) :
  digitsPrefix 10 (NilEmpty.string_of_uint d) (Some 0)
  = Some (Z.of_N (Pos.of_uint d)).
Proof.
  induction d; [done | ..];
    cbn [NilEmpty.string_of_uint digitsPrefix Pos.of_uint];
    [exact IHd | ..]; apply (digitsPrefix_acc d).
Qed.

Lemma digitsPrefix_uint (d : Decimal.uint) :
  d <> Decimal.Nil ->
  digitsPrefix 10 (NilEmpty.string_of_uint d) None
  = Some (Z.of_N (Pos.of_uint d)).
Proof.
  intros Hd. rewrite <- digitsPrefix_zero. by destruct d.
Qed.

(** The characters between [-] and [9] start no white space. *)
Lemma trimStart_digit (c : ascii) (s : string) :
  45 <= byte c <= 57 -> trimStart (String c s) = String c s.
Proof.
  intros Hc. cbn [trimStart].
  assert (H1 : whiteSpace1 c = false).
  { unfold whiteSpace1.
    destruct (Z.leb_spec 9 (byte c)), (Z.leb_spec (byte c) 13),
      (Z.eqb_spec (byte c) 32); simpl; lia || done. }
  assert (H2 : forall c2, whiteSpace2 c c2 = false).
  { intros c2. unfold whiteSpace2.
    destruct (Z.eqb_spec (byte c) 194); [lia | done]. }
  assert (H3 : forall c2 c3, whiteSpace3 c c2 c3 = false).
  { intros c2 c3. unfold whiteSpace3.
    destruct (Z.eqb_spec (byte c) 225), (Z.eqb_spec (byte c) 226),
      (Z.eqb_spec (byte c) 227), (Z.eqb_spec (byte c) 239); lia || done. }
  rewrite H1. destruct s as [| c2 [| c3 s]]; [done | by rewrite H2 |].
  by rewrite H2, H3.
Qed.

Lemma eqb_byte (c k : ascii) : byte c <> byte k -> Ascii.eqb c k = false.
Proof. intros Hne. destruct (Ascii.eqb_spec c k) as [-> | _]; done. Qed.

Lemma string_of_uint_head (d : Decimal.uint) :
  NilEmpty.string_of_uint d = ""
  \/ exists c s, NilEmpty.string_of_uint d = String c s /\ 48 <= byte c <= 57.
Proof.
  destruct d; [by left | right ..]; eexists _, _;
    (split; [reflexivity |]); by vm_compute.
Qed.

(** A string of decimal digits is read in radix 10, from its first
    character to its last. *)
Lemma parseIntString_digits (s : string) (c : ascii) (s' : string) :
  s = String c s' -> 48 <= byte c <= 57 ->
  (s' = "" \/ exists c' s'', s' = String c' s'' /\ 48 <= byte c' <= 57) ->
  parseIntString s = digitsPrefix 10 s None /\
  parseIntString (String "-" s)
  = (d ← digitsPrefix 10 s None; Some (- d)).
Proof.
  intros -> Hc Hs'.
  pose proof (eq_refl : byte "-" = 45) as Bm.
  pose proof (eq_refl : byte "+" = 43) as Bp.
  pose proof (eq_refl : byte "x" = 120) as Bx.
  pose proof (eq_refl : byte "X" = 88) as BX.
  assert (Hx : forall k, (byte k < 48 \/ 57 < byte k) -> Ascii.eqb c k = false)
    by (intros k Hk; apply eqb_byte; lia).
  assert (Hradix :
    match String c s' with
    | String c1 (String c2 t) =>
        if Ascii.eqb c1 "0" && (Ascii.eqb c2 "x" || Ascii.eqb c2 "X")
        then (16, t) else (10, String c s')
    | _ => (10, String c s')
    end = (10, String c s')).
  { destruct Hs' as [-> | (c' & s'' & -> & Hc')]; [done |].
    rewrite (eqb_byte c' "x"), (eqb_byte c' "X") by lia.
    by rewrite andb_false_r. }
  unfold parseIntString. split.
  - rewrite trimStart_digit by lia.
    rewrite (Hx "-"%char), (Hx "+"%char) by lia.
    rewrite Hradix. destruct (digitsPrefix 10 (String c s') None) as [d |]; [| done].
    simpl; f_equal; lia.
  - rewrite trimStart_digit by lia.
    change (Ascii.eqb "-" "-") with true. cbv iota.
    rewrite Hradix. destruct (digitsPrefix 10 (String c s') None) as [d |]; [| done].
    simpl; f_equal; lia.
Qed.

(** [parseInt] gives back an integer that prints in full. *)
Lemma parseInt_VNum (n : Z) :
  isSafeInteger n -> parseInt (VNum n) = Some n.
Proof.
  intros _. unfold parseInt, toString, Z_to_string.
  assert (Hu : forall d, d <> Decimal.Nil ->
            parseIntString (NilEmpty.string_of_uint d) = Some (Z.of_N (Pos.of_uint d)) /\
            parseIntString (String "-" (NilEmpty.string_of_uint d))
            = Some (- Z.of_N (Pos.of_uint d))).
  { intros d Hd. pose proof (digitsPrefix_uint d Hd) as Hp.
    destruct (string_of_uint_head d) as [He | (c & s & He & Hc)];
      [by destruct d |].
    assert (Hs : s = "" \/ exists c' s'', s = String c' s'' /\ 48 <= byte c' <= 57).
    { destruct d; try done; injection He as <- <-; apply string_of_uint_head. }
    destruct (parseIntString_digits _ c s He Hc Hs) as [-> ->].
    by rewrite Hp. }
  assert (Hz : forall d, d <> Decimal.Nil ->
            NilZero.string_of_uint d = NilEmpty.string_of_uint d)
    by (by intros []).
  destruct n as [| p | p]; [done | |]; cbn [Z.to_int NilZero.string_of_int];
    pose proof (Unsigned.to_uint_nonnil p) as Hnn; rewrite (Hz _ Hnn).
  - by rewrite (proj1 (Hu _ Hnn)), Unsigned.of_to.
  - by rewrite (proj2 (Hu _ Hnn)), Unsigned.of_to.
Qed.

End ParseIntFacts.

(** ** The balance chart from mount to display *)

Section ChartFlow.
Import JsDate BalanceChart.
Context {host : Host}.

(** Once an account is selected, the selection effect never replaces it,
    whatever becomes of the account list; and running the effect again
    changes nothing. *)
Theorem selectFirstAccount_sticky (accounts : list Account.t)
  (s : State) :
  (truthy (selectedAccount s) = true -> selectFirstAccount accounts s = s) /\
  selectFirstAccount accounts (selectFirstAccount accounts s)
  = selectFirstAccount accounts s.
Proof.
  unfold selectFirstAccount. destruct accounts as [| a rest]; [done |].
  destruct (truthy (selectedAccount s)) eqn:Hsel; simpl.
  - by rewrite Hsel.
  - split; [done |]. cbn [selectedAccount setSelectedAccount].
    by destruct (Account.id a =? 0).
Qed.

(** The chart resolves a selected id (a safe integer, as the ids of the
    data model are) as the transaction list resolves an account id, to
    the name of the first account that carries it; only the fallback
    differs, "Conta" here; and with nothing selected the label is that
    fallback. *)
Theorem chart_getAccountName (accounts : list Account.t) (n : Z) :
  isSafeInteger n ->
  getAccountName accounts (VNum n)
  = match List.find (fun acc => Account.id acc =? n) accounts with
    | Some _ => TransactionList.getAccountName accounts n
    | None => "Conta"
    end /\
  getAccountName accounts (VStr "") = "Conta".
Proof.
  intros Hn. unfold getAccountName, TransactionList.getAccountName.
  rewrite (parseInt_VNum n Hn). split.
  - by destruct (List.find _ accounts).
  - change (parseInt (VStr "")) with (@None Z). by induction accounts.
Qed.

(** On mount, with a first account whose id is a safe integer other
    than [0], that account is selected and its history of the last 30 days is requested; the card
    then shows the chart of the response, labelled with the account's
    name, or the no-data text when the response is empty or the fetch
    failed. *)
Theorem chart_after_mount (net : string -> Response (list BalanceHistoryPoint.t))
  (account : Account.t) (rest : list Account.t) :
  Account.id account <> 0 ->
  isSafeInteger (Account.id account) ->
  let accounts := account :: rest in
  let s := selectFirstAccount accounts initialState in
  let url := "http://localhost:8000/accounts/"
             +:+ Z_to_string (Account.id account)
             +:+ "/balance-history?days=30" in
  selectedAccount s = VNum (Account.id account) /\
  head (snd (loadOnSelection net s)) = Some (EFetch url) /\
  view accounts (fst (loadOnSelection net s))
  = match net url with
    | Resolved (p :: ps) =>
        LineChart (map BalanceHistoryPoint.balance (p :: ps))
                  (Account.name account)
                  (map labelOf (p :: ps))
    | _ => NoData
    end.
Proof.
  intros Hid Hsafe accounts s url.
  assert (Hs : s = mkState (VNum (Account.id account)) [] false) by done.
  assert (Ht : truthy (VNum (Account.id account)) = true).
  { simpl. by rewrite (proj2 (Z.eqb_neq _ 0) Hid). }
  split; [by rewrite Hs |].
  unfold loadOnSelection, loadBalanceHistory. rewrite Hs. simpl selectedAccount.
  rewrite Ht. simpl negb. cbn iota.
  change (balanceHistoryUrl (VNum (Account.id account))) with url.
  destruct (net url) as [[| p ps] |]; (split; [reflexivity |]);
    try reflexivity.
  unfold view. simpl. unfold getAccountName.
  rewrite (parseInt_VNum _ Hsafe). simpl. by rewrite Z.eqb_refl.
Qed.

(** An account list that starts with an account of id [0] is never
    charted: the selection stays falsy, no history is requested and the
    card keeps the no-data text. *)
Theorem account_zero_never_charted
  (net : string -> Response (list BalanceHistoryPoint.t))
  (account : Account.t) (rest : list Account.t) :
  Account.id account = 0 ->
  let accounts := account :: rest in
  let s := selectFirstAccount accounts initialState in
  loadOnSelection net s = (s, []) /\
  loadBalanceHistory net s = (s, []) /\
  view accounts s = NoData /\
  selectFirstAccount accounts s = s.
Proof.
  intros Hid accounts s.
  assert (Hs : s = mkState (VNum 0) [] false).
  { subst s accounts. unfold selectFirstAccount. simpl. by rewrite Hid. }
  by rewrite Hs.
Qed.

(** The card after any load of a selected account: never the spinner;
    the no-data text for a failed fetch or an empty history, even if a
    chart was shown before; otherwise the chart of the new points, as
    many labels as values. *)
Theorem view_after_load (net : string -> Response (list BalanceHistoryPoint.t))
  (accounts : list Account.t) (s : State) :
  truthy (selectedAccount s) = true ->
  let s' := fst (loadBalanceHistory net s) in
  view accounts s' <> Spinner /\
  match net (balanceHistoryUrl (selectedAccount s)) with
  | Resolved (p :: ps) =>
      exists label,
        view accounts s'
        = LineChart (map BalanceHistoryPoint.balance (p :: ps)) label
                    (map labelOf (p :: ps))
  | _ => view accounts s' = NoData
  end.
Proof.
  intros Hsel s'. subst s'. unfold loadBalanceHistory. rewrite Hsel.
  simpl negb. cbn iota. simpl selectedAccount.
  destruct (net (balanceHistoryUrl (selectedAccount s))) as [[| p ps] |];
    (split; [done |]); try done.
  eexists. reflexivity.
Qed.

End ChartFlow.

Lemma chart_after_mount_example :
  let accounts := [Account.mk 7 "Carteira" 250; Account.mk 8 "Banco" 1200] in
  let net := fun _ : string =>
               Resolved [BalanceHistoryPoint.mk "2024-01-01" 100;
                         BalanceHistoryPoint.mk "2024-01-02" 150] in
  let s := BalanceChart.selectFirstAccount accounts BalanceChart.initialState in
  BalanceChart.selectedAccount s = VNum 7 /\
  head (snd (BalanceChart.loadOnSelection net s))
  = Some (EFetch "http://localhost:8000/accounts/7/balance-history?days=30") /\
  @BalanceChart.view utc accounts (fst (BalanceChart.loadOnSelection net s))
  = BalanceChart.LineChart [100%Q; 150%Q] "Carteira" ["01/01/2024"; "02/01/2024"].
Proof.
  apply (@chart_after_mount utc
           (fun _ => Resolved [BalanceHistoryPoint.mk "2024-01-01" 100;
                               BalanceHistoryPoint.mk "2024-01-02" 150])
           (Account.mk 7 "Carteira" 250) [Account.mk 8 "Banco" 1200]).
  - discriminate.
  - reflexivity.
Defined.

Lemma chart_getAccountName_example :
  let accounts := [Account.mk 7 "Carteira" 250; Account.mk 8 "Banco" 1200] in
  BalanceChart.getAccountName accounts (VNum 8)
  = match List.find (fun acc => Account.id acc =? 8) accounts with
    | Some _ => TransactionList.getAccountName accounts 8
    | None => "Conta"
    end /\
  BalanceChart.getAccountName accounts (VStr "") = "Conta".
Proof.
  apply (chart_getAccountName
           [Account.mk 7 "Carteira" 250; Account.mk 8 "Banco" 1200] 8).
  reflexivity.
Defined.

Lemma account_zero_never_charted_example :
  let accounts := [Account.mk 0 "Carteira" 250; Account.mk 8 "Banco" 1200] in
  let s := BalanceChart.selectFirstAccount accounts BalanceChart.initialState in
  BalanceChart.loadOnSelection (fun _ => Resolved []) s = (s, []) /\
  BalanceChart.loadBalanceHistory (fun _ => Resolved []) s = (s, []) /\
  @BalanceChart.view utc accounts s = BalanceChart.NoData /\
  BalanceChart.selectFirstAccount accounts s = s.
Proof.
  apply (@account_zero_never_charted utc (fun _ => Resolved [])
           (Account.mk 0 "Carteira" 250) [Account.mk 8 "Banco" 1200]).
  reflexivity.
Defined.

(** A chart on display gives way to the no-data text when the next fetch
    fails. *)
Lemma view_after_load_example :
  let accounts := [Account.mk 7 "Carteira" 250] in
  let s := BalanceChart.mkState (VNum 7)
             [BalanceHistoryPoint.mk "2024-01-01" 100] false in
  let s' := fst (BalanceChart.loadBalanceHistory (fun _ => Rejected) s) in
  @BalanceChart.view utc accounts s' <> BalanceChart.Spinner /\
  @BalanceChart.view utc accounts s' = BalanceChart.NoData.
Proof.
  apply (@view_after_load utc (fun _ => Rejected) [Account.mk 7 "Carteira" 250]
           (BalanceChart.mkState (VNum 7)
              [BalanceHistoryPoint.mk "2024-01-01" 100] false)).
  reflexivity.
Defined.

(** ** The calendar: from a date to its day number and back *)

Section Calendar.
Import JsDate.

Lemma days_from_civil_march (y m d : Z) :
  1 <= m <= 12 ->
  days_from_civil y m d
  = days_from_march (if m <=? 2 then y - 1 else y)
                    (if m <=? 2 then m + 9 else m - 3) d.
Proof.
  intros Hm. unfold days_from_civil, days_from_march, monthStart.
  assert (Hmp : (m + 9) mod 12 = if m <=? 2 then m + 9 else m - 3).
  { destruct (Z.leb_spec m 2); Z.div_mod_to_equations; lia. }
  by rewrite Hmp.
Qed.

Lemma civil_from_days_march (y' mp d : Z) :
  0 <= mp <= 11 -> 1 <= d ->
  monthStart mp + d <= monthStart (mp + 1) ->
  (mp = 11 -> d <= 29) ->
  (mp = 11 -> d = 29 -> isLeap (y' + 1) = true) ->
  civil_from_days (days_from_march y' mp d)
  = (if mp <? 10 then y' else y' + 1,
     if mp <? 10 then mp + 3 else mp - 9,
     d).
Proof.
  intros Hmp Hd Hlen Hfebmax Hleap.
  unfold civil_from_days, days_from_march. cbv zeta.
  set (era := y' / 400). set (yoe := y' - era * 400).
  assert (Hyoe : 0 <= yoe < 400) by (subst yoe era; Z.div_mod_to_equations; lia).
  set (doy := monthStart mp + d - 1).
  assert (Hdoy : 0 <= doy <= 365).
  { subst doy. unfold monthStart in *. Z.div_mod_to_equations. lia. }
  assert (Hfeb : doy = 365 ->
                 (yoe + 1) mod 4 = 0 /\ ((yoe + 1) mod 100 <> 0 \/ yoe = 399)).
  { intros E. assert (mp = 11 /\ d = 29) as [-> ->].
    { subst doy. unfold monthStart in *. Z.div_mod_to_equations. lia. }
    specialize (Hleap eq_refl eq_refl). unfold isLeap in Hleap.
    apply orb_true_iff in Hleap as [Hleap | Hleap].
    - apply andb_true_iff in Hleap as [H4 H100].
      apply Z.eqb_eq in H4. apply negb_true_iff, Z.eqb_neq in H100.
      subst yoe era. Z.div_mod_to_equations. lia.
    - apply Z.eqb_eq in Hleap. subst yoe era. Z.div_mod_to_equations. lia. }
  set (doe := yoe * 365 + yoe / 4 - yoe / 100 + doy).
  assert (Hdoe : 0 <= doe < 146097).
  { subst doe. Z.div_mod_to_equations. lia. }
  replace (era * 146097 + doe - 719468 + 719468) with (doe + era * 146097) by lia.
  rewrite Z.div_add by lia. rewrite (Z.div_small doe) by lia. rewrite Z.add_0_l.
  replace (doe + era * 146097 - era * 146097) with doe by lia.
  assert (Hy2 : (doe - doe / 1460 + doe / 36524 - doe / 146096) / 365 = yoe).
  { subst doe. clearbody yoe doy. clear - Hyoe Hdoy Hfeb.
    Z.div_mod_to_equations. lia. }
  rewrite Hy2.
  replace (doe - (365 * yoe + yoe / 4 - yoe / 100)) with doy by (subst doe; lia).
  assert (Hmp2 : (5 * doy + 2) / 153 = mp).
  { subst doy. unfold monthStart in *. clear - Hmp Hd Hlen.
    Z.div_mod_to_equations. lia. }
  rewrite Hmp2. fold (monthStart mp).
  replace (doy - monthStart mp + 1) with d by (subst doy; lia).
  replace (yoe + era * 400) with y' by (subst yoe; lia).
  destruct (Z.ltb_spec mp 10) as [Hlt | Hge].
  - destruct (Z.leb_spec (mp + 3) 2); [lia | done].
  - destruct (Z.leb_spec (mp - 9) 2); [done | lia].
Qed.

(** Every date of the calendar is recovered from its day number. *)
Lemma civil_from_days_from_civil (y m d : Z) :
  1 <= m <= 12 -> 1 <= d <= DaysInMonth y m ->
  civil_from_days (days_from_civil y m d) = (y, m, d).
Proof.
  intros Hm Hd. rewrite days_from_civil_march by done.
  assert (Hcase : m = 1 \/ m = 2 \/ m = 3 \/ m = 4 \/ m = 5 \/ m = 6 \/ m = 7
                  \/ m = 8 \/ m = 9 \/ m = 10 \/ m = 11 \/ m = 12) by lia.
  clear Hm. unfold DaysInMonth in Hd.
  destruct (isLeap y) eqn:Hleap;
    repeat destruct Hcase as [-> | Hcase]; try subst m; simpl in Hd;
    match goal with
    | |- context [if ?a <=? 2 then _ else _] =>
        let b := eval vm_compute in (a <=? 2) in
        change (a <=? 2) with b; cbv iota
    end;
    match goal with
    | |- context [days_from_march _ ?mp d] =>
        let v := eval vm_compute in mp in change mp with v
    end;
    (rewrite civil_from_days_march;
     [ cbn; repeat f_equal; lia
     | lia
     | lia
     | repeat match goal with
              | |- context [monthStart ?k] =>
                  let v := eval vm_compute in (monthStart k) in
                  change (monthStart k) with v
              end; lia
     | intros; lia
     | intros; try lia; replace (y - 1 + 1) with y by lia; exact Hleap ]).
Qed.

Lemma allFrom_spec (test : Z -> bool) (count : nat) : forall n i,
  allFrom count n test = true -> n <= i < n + Z.of_nat count -> test i = true.
Proof.
  induction count as [| count IH]; intros n i Hall Hi; [lia |].
  cbn [allFrom] in Hall. apply andb_true_iff in Hall as [Hn Hrest].
  destruct (decide (i = n)) as [-> | Hne]; [done |].
  apply (IH (n + 1)); [done | lia].
Qed.

(** Two and four digits print and read back. *)
Lemma readsBack_2 : allFrom (Z.to_nat 100) 0 (readsBack 2) = true.
Proof. lazy. reflexivity. Qed.

Lemma readsBack_4 : allFrom (Z.to_nat 10000) 0 (readsBack 4) = true.
Proof. lazy. reflexivity. Qed.

Lemma addLeadingZeros_2 (n : Z) :
  0 <= n < 100 ->
  exists c1 c2, addLeadingZeros n 2 = String c1 (String c2 "")
                /\ number [c1; c2] 0 = Some n.
Proof.
  intros Hn. pose proof (allFrom_spec _ _ 0 n readsBack_2 ltac:(lia)) as H.
  unfold readsBack in H.
  destruct (addLeadingZeros n 2) as [| c1 [| c2 [| ? ?]]];
    try (destruct (number _ 0); [by apply andb_true_iff in H as [_ H] | done]).
  exists c1, c2. split; [done |]. cbn [list_ascii_of_string] in H.
  destruct (number [c1; c2] 0) as [v |]; [| done].
  apply andb_true_iff in H as [H _]. apply Z.eqb_eq in H. by subst.
Qed.

Lemma addLeadingZeros_4 (n : Z) :
  0 <= n < 10000 ->
  exists c1 c2 c3 c4,
    addLeadingZeros n 4 = String c1 (String c2 (String c3 (String c4 "")))
    /\ number [c1; c2; c3; c4] 0 = Some n.
Proof.
  intros Hn. pose proof (allFrom_spec _ _ 0 n readsBack_4 ltac:(lia)) as H.
  unfold readsBack in H.
  destruct (addLeadingZeros n 4) as [| c1 [| c2 [| c3 [| c4 [| ? ?]]]]];
    try (destruct (number _ 0); [by apply andb_true_iff in H as [_ H] | done]).
  exists c1, c2, c3, c4. split; [done |]. cbn [list_ascii_of_string] in H.
  destruct (number [c1; c2; c3; c4] 0) as [v |]; [| done].
  apply andb_true_iff in H as [H _]. apply Z.eqb_eq in H. by subst.
Qed.

Lemma DaysInMonth_le (y m : Z) : DaysInMonth y m <= 31.
Proof.
  unfold DaysInMonth.
  destruct (m =? 2), (isLeap y), ((m =? 4) || (m =? 6) || (m =? 9) || (m =? 11));
    lia.
Qed.

(** The date-only string of a date parses to midnight UTC of that day. *)
Lemma parseIsoDate_isoDate (y m d : Z) :
  calendarDate y m d ->
  parseIsoDate (isoDate y m d) = Some (days_from_civil y m d * msPerDay).
Proof.
  intros (Hy & Hm & Hd). pose proof (DaysInMonth_le y m) as Hle.
  destruct (addLeadingZeros_4 y) as (y1 & y2 & y3 & y4 & Ey & Ny); [lia |].
  destruct (addLeadingZeros_2 m) as (m1 & m2 & Em & Nm); [lia |].
  destruct (addLeadingZeros_2 d) as (d1 & d2 & Ed & Nd); [lia |].
  unfold isoDate, parseIsoDate. rewrite Ey, Em, Ed.
  change (list_ascii_of_string
            (String y1 (String y2 (String y3 (String y4 "")))
             +:+ "-" +:+ String m1 (String m2 "") +:+ "-"
             +:+ String d1 (String d2 "")))
    with [y1; y2; y3; y4; "-"%char; m1; m2; "-"%char; d1; d2].
  change (Ascii.eqb "-" "-") with true. cbn [andb]. rewrite Ny, Nm, Nd.
  destruct (Z.leb_spec 1 m), (Z.leb_spec m 12), (Z.leb_spec 1 d),
    (Z.leb_spec d (DaysInMonth y m)); try lia. done.
Qed.

End Calendar.

(** ** Dates on screen, east and west of UTC *)

Section LocalDates.
Import JsDate TransactionList.
Context {host : Host}.

Lemma Day_LocalTime_west (d : Z) :
  westOfUTC host -> Day (LocalTime (d * msPerDay)) = d - 1.
Proof.
  intros Hwest. unfold Day, LocalTime.
  specialize (Hwest (d * msPerDay)). unfold msPerDay in *.
  symmetry.
  apply (Z.div_unique _ _ (d - 1) (86400000 + LocalTZA (d * 86400000))); lia.
Qed.

(** The day before a date that is not the first of its month, and the day
    before the first of a month. *)
Lemma days_from_civil_pred (y m d : Z) :
  days_from_civil y m d - 1 = days_from_civil y m (d - 1).
Proof. unfold days_from_civil. lia. Qed.

Lemma days_from_civil_first (y m : Z) :
  2 <= m <= 12 ->
  days_from_civil y m 1 - 1
  = days_from_civil y (m - 1) (DaysInMonth y (m - 1)).
Proof.
  intros Hm.
  assert (Hcase : m = 2 \/ m = 3 \/ m = 4 \/ m = 5 \/ m = 6 \/ m = 7
                  \/ m = 8 \/ m = 9 \/ m = 10 \/ m = 11 \/ m = 12) by lia.
  clear Hm.
  repeat destruct Hcase as [-> | Hcase]; try subst m;
    match goal with
    | |- context [Z.pos ?p - 1] =>
        let v := eval vm_compute in (Z.pos p - 1) in
        change (Z.pos p - 1) with v
    end;
    unfold DaysInMonth; cbn [Z.eqb Pos.eqb orb];
    rewrite !days_from_civil_march by lia;
    cbn [Z.leb Z.compare Pos.compare Pos.compare_cont];
    unfold days_from_march, monthStart, isLeap.
  all: try (Z.div_mod_to_equations; lia).
  (* March: the day before is the last of February *)
  destruct (Z.eqb_spec (y mod 4) 0), (Z.eqb_spec (y mod 100) 0),
    (Z.eqb_spec (y mod 400) 0); cbn [andb orb negb];
    Z.div_mod_to_equations; lia.
Qed.

Lemma days_from_civil_new_year (y : Z) :
  days_from_civil y 1 1 - 1 = days_from_civil (y - 1) 12 31.
Proof.
  rewrite !days_from_civil_march by lia.
  cbn [Z.leb Z.compare Pos.compare Pos.compare_cont].
  unfold days_from_march, monthStart. Z.div_mod_to_equations. lia.
Qed.

Lemma DaysInMonth_ge (y m : Z) : 28 <= DaysInMonth y m.
Proof.
  unfold DaysInMonth.
  destruct (m =? 2), (isLeap y), ((m =? 4) || (m =? 6) || (m =? 9) || (m =? 11));
    lia.
Qed.

(** The day before a date of the calendar is a date of the calendar, one
    day number below. *)
Lemma previousDay_spec (y m d : Z) :
  1 <= m <= 12 -> 1 <= d <= DaysInMonth y m ->
  let '(y', m', d') := previousDay (y, m, d) in
  1 <= m' <= 12 /\ 1 <= d' <= DaysInMonth y' m' /\
  days_from_civil y' m' d' = days_from_civil y m d - 1.
Proof.
  intros Hm Hd. unfold previousDay.
  destruct (Z.leb_spec 2 d) as [Hd2 | Hd1].
  - split; [done |]. split; [lia |]. by rewrite days_from_civil_pred.
  - assert (d = 1) as -> by lia.
    destruct (Z.leb_spec 2 m) as [Hm2 | Hm1].
    + pose proof (DaysInMonth_ge y (m - 1)).
      split; [lia |]. split; [lia |]. by rewrite days_from_civil_first by lia.
    + assert (m = 1) as -> by lia.
      split; [lia |]. split; [by vm_compute |].
      by rewrite days_from_civil_new_year.
Qed.

(** The local calendar fields of a UTC midnight: those of the same day
    east of UTC, those of the day before west of it. *)
Lemma local_fields (y m d : Z) :
  1 <= m <= 12 -> 1 <= d <= DaysInMonth y m ->
  Day (LocalTime (days_from_civil y m d * msPerDay)) = days_from_civil y m d ->
  getFullYear (days_from_civil y m d * msPerDay) = y /\
  getMonth (days_from_civil y m d * msPerDay) = m - 1 /\
  getDate (days_from_civil y m d * msPerDay) = d.
Proof.
  intros Hm Hd Hday.
  unfold getFullYear, getMonth, getDate, YearFromTime, MonthFromTime, DateFromTime.
  by rewrite Hday, civil_from_days_from_civil.
Qed.

Lemma local_fields_before (y m d : Z) :
  1 <= m <= 12 -> 1 <= d <= DaysInMonth y m ->
  Day (LocalTime (days_from_civil y m d * msPerDay)) = days_from_civil y m d - 1 ->
  let '(y', m', d') := previousDay (y, m, d) in
  getFullYear (days_from_civil y m d * msPerDay) = y' /\
  getMonth (days_from_civil y m d * msPerDay) = m' - 1 /\
  getDate (days_from_civil y m d * msPerDay) = d'.
Proof.
  intros Hm Hd Hday. pose proof (previousDay_spec y m d Hm Hd) as Hprev.
  destruct (previousDay (y, m, d)) as [[y' m'] d'].
  destruct Hprev as (Hm' & Hd' & Hdays).
  unfold getFullYear, getMonth, getDate, YearFromTime, MonthFromTime, DateFromTime.
  by rewrite Hday, <- Hdays, civil_from_days_from_civil.
Qed.

Lemma yearOfEra_ce (y : Z) : 1 <= y -> yearOfEra y = y.
Proof. intros Hy. unfold yearOfEra. destruct (Z.ltb_spec 0 y); [done | lia]. Qed.

(** At or east of UTC, [formatDate] shows a date-only string as the day
    it names, day first. *)
Theorem formatDate_east (y m d : Z) :
  parsesIsoDates host -> eastOfUTC host -> calendarDate y m d ->
  formatDate (isoDate y m d) = Return (ddMMyyyy (y, m, d)).
Proof.
  intros Hiso Heast (Hy & Hm & Hd).
  unfold formatDate, newDate.
  rewrite (Hiso _ _ (parseIsoDate_isoDate y m d (conj Hy (conj Hm Hd)))).
  destruct (local_fields y m d Hm Hd (Day_LocalTime_east _ Heast))
    as (HY & HM & HD).
  unfold format_dd_MM_yyyy, ddMMyyyy. rewrite HY, HM, HD, yearOfEra_ce by lia.
  by replace (m - 1 + 1) with m by lia.
Qed.

(** At or east of UTC, [toLocaleDateString] shows a date-only string as
    the day it names. *)
Lemma chart_label_east (y m d : Z) :
  parsesIsoDates host -> eastOfUTC host -> calendarDate y m d ->
  toLocaleDateString_ptBR (newDate (isoDate y m d))
  = BalanceChart.dateLabel (y, m, d).
Proof.
  intros Hiso Heast (Hy & Hm & Hd). unfold newDate.
  rewrite (Hiso _ _ (parseIsoDate_isoDate y m d (conj Hy (conj Hm Hd)))).
  destruct (local_fields y m d Hm Hd (Day_LocalTime_east _ Heast))
    as (HY & HM & HD).
  unfold toLocaleDateString_ptBR, BalanceChart.dateLabel.
  rewrite HY, HM, HD, yearOfEra_ce by lia.
  by replace (m - 1 + 1) with m by lia.
Qed.

(** At or east of UTC the chart labels every point with the day its
    date names, as pt-BR writes it, and pairs it with its balance, in the
    order of the input. *)
Theorem prepareChartData_east (entries : list (Z * Z * Z * Q))
  (selected : JsVal) (busy : bool) :
  parsesIsoDates host -> eastOfUTC host ->
  Forall BalanceChart.dated entries ->
  BalanceChart.prepareChartData
    (BalanceChart.mkState selected (map BalanceChart.pointOn entries) busy)
  = BalanceChart.mkChartData
      (map (fun entry => BalanceChart.dateLabel (fst entry)) entries)
      (map snd entries).
Proof.
  intros Hiso Heast Hdated.
  assert (Hl : map (fun item => toLocaleDateString_ptBR
                                  (newDate (BalanceHistoryPoint.date item)))
                   (map BalanceChart.pointOn entries)
               = map (fun entry => BalanceChart.dateLabel (fst entry)) entries).
  { induction Hdated as [| [[[y m] d] b] rest Hx _ IH]; [done |].
    cbn [map BalanceChart.pointOn BalanceHistoryPoint.date fst].
    by rewrite IH, (chart_label_east y m d Hiso Heast Hx). }
  assert (Hb : map BalanceHistoryPoint.balance (map BalanceChart.pointOn entries)
               = map snd entries).
  { clear. induction entries as [| [[[y m] d] b] rest IH]; [done |].
    cbn [map BalanceChart.pointOn BalanceHistoryPoint.balance snd].
    by rewrite IH. }
  unfold BalanceChart.prepareChartData.
  cbn [BalanceChart.balanceHistory]. rewrite Hl, Hb.
  by destruct entries.
Qed.

(** West of UTC, [formatDate] shows the day before the one the string
    names. *)
Theorem formatDate_west (y m d : Z) :
  parsesIsoDates host -> westOfUTC host -> calendarDate y m d ->
  (y, m, d) <> (1, 1, 1) ->
  formatDate (isoDate y m d) = Return (ddMMyyyy (previousDay (y, m, d))).
Proof.
  intros Hiso Hwest (Hy & Hm & Hd) Hfirst.
  unfold formatDate, newDate.
  rewrite (Hiso _ _ (parseIsoDate_isoDate y m d (conj Hy (conj Hm Hd)))).
  pose proof (local_fields_before y m d Hm Hd (Day_LocalTime_west _ Hwest)) as Hf.
  assert (Hy' : 1 <= fst (fst (previousDay (y, m, d)))).
  { unfold previousDay. destruct (Z.leb_spec 2 d), (Z.leb_spec 2 m); simpl; try lia.
    destruct (decide (y = 1)) as [-> |]; [| lia].
    destruct Hfirst. repeat f_equal; lia. }
  destruct (previousDay (y, m, d)) as [[y' m'] d']. simpl in Hy'.
  destruct Hf as (HY & HM & HD).
  unfold format_dd_MM_yyyy, ddMMyyyy. rewrite HY, HM, HD, yearOfEra_ce by lia.
  by replace (m' - 1 + 1) with m' by lia.
Qed.

(** The label of a date-only string at or east of UTC. *)
Lemma monthKeyOf_isoDate_east (t : Transaction.t) (y m d : Z) :
  parsesIsoDates host -> eastOfUTC host -> calendarDate y m d ->
  Transaction.date t = isoDate y m d ->
  monthKeyOf t = Return (monthYear (y, m, d)).
Proof.
  intros Hiso Heast (Hy & Hm & Hd) Ht.
  unfold monthKeyOf, newDate. rewrite Ht.
  rewrite (Hiso _ _ (parseIsoDate_isoDate y m d (conj Hy (conj Hm Hd)))).
  destruct (local_fields y m d Hm Hd (Day_LocalTime_east _ Heast))
    as (HY & HM & HD).
  unfold format_MMMM_yyyy, monthYear. by rewrite HY, HM, yearOfEra_ce by lia.
Qed.

(** At or east of UTC the month label of a transaction with a date-only
    string is the month and the year written in the string. *)
Theorem monthKeyOf_written_east (t : Transaction.t) (y m d : Z) :
  parsesIsoDates host -> eastOfUTC host -> calendarDate y m d ->
  Transaction.date t = isoDate y m d ->
  monthKeyOf t = Return (monthYear (y, m, d)).
Proof.
  intros Hiso Heast (Hy & Hm & Hd) Ht.
  unfold monthKeyOf, newDate. rewrite Ht.
  rewrite (Hiso _ _ (parseIsoDate_isoDate y m d (conj Hy (conj Hm Hd)))).
  destruct (local_fields y m d Hm Hd (Day_LocalTime_east _ Heast))
    as (HY & HM & HD).
  unfold format_MMMM_yyyy, monthYear. by rewrite HY, HM, yearOfEra_ce by lia.
Qed.

(** West of UTC the month label is that of the day before the written
    date: a transaction dated the first of a month is listed under the
    month before, and one of 1 January under December of the year
    before. *)
Theorem monthKeyOf_written_west (t : Transaction.t) (y m d : Z) :
  parsesIsoDates host -> westOfUTC host -> calendarDate y m d ->
  (y, m, d) <> (1, 1, 1) ->
  Transaction.date t = isoDate y m d ->
  monthKeyOf t = Return (monthYear (previousDay (y, m, d))).
Proof.
  intros Hiso Hwest (Hy & Hm & Hd) Hfirst Ht.
  unfold monthKeyOf, newDate. rewrite Ht.
  rewrite (Hiso _ _ (parseIsoDate_isoDate y m d (conj Hy (conj Hm Hd)))).
  pose proof (local_fields_before y m d Hm Hd (Day_LocalTime_west _ Hwest)) as Hf.
  assert (Hy' : 1 <= fst (fst (previousDay (y, m, d)))).
  { unfold previousDay. destruct (Z.leb_spec 2 d), (Z.leb_spec 2 m); simpl; try lia.
    destruct (decide (y = 1)) as [-> |]; [| lia].
    destruct Hfirst. repeat f_equal; lia. }
  destruct (previousDay (y, m, d)) as [[y' m'] d']. simpl in Hy'.
  destruct Hf as (HY & HM & HD).
  unfold format_MMMM_yyyy, monthYear. by rewrite HY, HM, yearOfEra_ce by lia.
Qed.

(** A label splits at its first space in one way only. *)
Lemma append_space_inj (a a' b b' : string) :
  URLSearchParams.occurrences " " a = 0%nat ->
  URLSearchParams.occurrences " " a' = 0%nat ->
  a +:+ " " +:+ b = a' +:+ " " +:+ b' -> a = a' /\ b = b'.
Proof.
  revert a'. induction a as [| c a IH]; intros [| c' a'] Ha Ha' E.
  - by injection E.
  - rewrite append_cons in E. injection E as <- _.
    cbn [URLSearchParams.occurrences] in Ha'. by rewrite Ascii.eqb_refl in Ha'.
  - rewrite append_cons in E. injection E as -> _.
    cbn [URLSearchParams.occurrences] in Ha. by rewrite Ascii.eqb_refl in Ha.
  - rewrite !append_cons in E. injection E as -> E.
    cbn [URLSearchParams.occurrences] in Ha, Ha'.
    destruct (IH a') as [-> ->]; [lia | lia | done | done].
Qed.

Lemma ptBR_month_inj (m m' : Z) :
  1 <= m <= 12 -> 1 <= m' <= 12 ->
  URLSearchParams.occurrences " " (ptBR_month (m - 1)) = 0%nat /\
  (ptBR_month (m - 1) = ptBR_month (m' - 1) -> m = m').
Proof.
  intros Hm Hm'.
  assert (Hc : m = 1 \/ m = 2 \/ m = 3 \/ m = 4 \/ m = 5 \/ m = 6 \/ m = 7
               \/ m = 8 \/ m = 9 \/ m = 10 \/ m = 11 \/ m = 12) by lia.
  assert (Hc' : m' = 1 \/ m' = 2 \/ m' = 3 \/ m' = 4 \/ m' = 5 \/ m' = 6
                \/ m' = 7 \/ m' = 8 \/ m' = 9 \/ m' = 10 \/ m' = 11
                \/ m' = 12) by lia.
  clear Hm Hm'.
  repeat destruct Hc as [-> | Hc]; try subst m; (split; [reflexivity |]);
    repeat destruct Hc' as [-> | Hc']; try subst m';
    vm_compute; congruence.
Qed.

Lemma addLeadingZeros_4_inj (y y' : Z) :
  0 <= y < 10000 -> 0 <= y' < 10000 ->
  addLeadingZeros y 4 = addLeadingZeros y' 4 -> y = y'.
Proof.
  intros Hy Hy' E.
  destruct (addLeadingZeros_4 y Hy) as (c1 & c2 & c3 & c4 & E1 & N1).
  destruct (addLeadingZeros_4 y' Hy') as (c1' & c2' & c3' & c4' & E2 & N2).
  rewrite E1, E2 in E. injection E as <- <- <- <-. congruence.
Qed.

(** At or east of UTC two transactions with date-only strings fall in
    the same group exactly when their strings name the same month of the
    same year. *)
Theorem same_group_iff_same_month (t1 t2 : Transaction.t)
  (y1 m1 d1 y2 m2 d2 : Z) :
  parsesIsoDates host -> eastOfUTC host ->
  calendarDate y1 m1 d1 -> calendarDate y2 m2 d2 ->
  Transaction.date t1 = isoDate y1 m1 d1 ->
  Transaction.date t2 = isoDate y2 m2 d2 ->
  monthKeyOf t1 = monthKeyOf t2 <-> y1 = y2 /\ m1 = m2.
Proof.
  intros Hiso Heast H1 H2 E1 E2.
  rewrite (monthKeyOf_isoDate_east t1 y1 m1 d1 Hiso Heast H1 E1).
  rewrite (monthKeyOf_isoDate_east t2 y2 m2 d2 Hiso Heast H2 E2).
  destruct H1 as (Hy1 & Hm1 & _), H2 as (Hy2 & Hm2 & _).
  unfold monthYear. split.
  - intros E. injection E as E.
    destruct (ptBR_month_inj m1 m2 Hm1 Hm2) as [Hs1 Hinj].
    destruct (ptBR_month_inj m2 m1 Hm2 Hm1) as [Hs2 _].
    apply append_space_inj in E as [Em Ey]; [| done | done].
    split; [| by apply Hinj]. apply addLeadingZeros_4_inj; [lia | lia | done].
  - by intros [-> ->].
Qed.

End LocalDates.

(** The example of the specification, on UTC. *)
Lemma prepareChartData_east_example :
  @BalanceChart.prepareChartData utc
    (BalanceChart.mkState (VNum 1)
       [BalanceHistoryPoint.mk "2024-01-01" 100;
        BalanceHistoryPoint.mk "2024-01-02" 150] false)
  = BalanceChart.mkChartData ["01/01/2024"; "02/01/2024"] [100%Q; 150%Q].
Proof.
  apply (@prepareChartData_east utc
           [(2024, 1, 1, 100%Q); (2024, 1, 2, 150%Q)] (VNum 1) false).
  - intros s t H. exact H.
  - intros t. simpl. unfold JsDate.msPerDay. lia.
  - repeat constructor; vm_compute; intuition discriminate.
Defined.

Lemma formatDate_east_example :
  @TransactionList.formatDate utc "2024-02-01" = Return "01/02/2024".
Proof.
  apply (@formatDate_east utc 2024 2 1).
  - intros s t H. exact H.
  - intros t. simpl. unfold JsDate.msPerDay. lia.
  - repeat split; (lia || by vm_compute).
Defined.

Lemma formatDate_west_example :
  @TransactionList.formatDate brasilia "2024-02-01" = Return "31/01/2024".
Proof.
  apply (@formatDate_west brasilia 2024 2 1).
  - intros s t H. exact H.
  - intros t. simpl. unfold JsDate.msPerDay. lia.
  - repeat split; (lia || by vm_compute).
  - discriminate.
Defined.

Lemma monthKeyOf_written_east_example :
  @TransactionList.monthKeyOf utc (TransactionList.exampleTransaction 3 "2024-02-01")
  = Return "fevereiro 2024".
Proof.
  apply (@monthKeyOf_written_east utc
           (TransactionList.exampleTransaction 3 "2024-02-01") 2024 2 1).
  - intros s t H. exact H.
  - intros t. simpl. unfold JsDate.msPerDay. lia.
  - repeat split; (lia || by vm_compute).
  - reflexivity.
Defined.

Lemma monthKeyOf_written_west_example :
  @TransactionList.monthKeyOf brasilia
    (TransactionList.exampleTransaction 3 "2024-01-01")
  = Return "dezembro 2023".
Proof.
  apply (@monthKeyOf_written_west brasilia
           (TransactionList.exampleTransaction 3 "2024-01-01") 2024 1 1).
  - intros s t H. exact H.
  - intros t. simpl. unfold JsDate.msPerDay. lia.
  - repeat split; (lia || by vm_compute).
  - discriminate.
  - reflexivity.
Defined.

Lemma same_group_iff_same_month_example :
  @TransactionList.monthKeyOf utc (TransactionList.exampleTransaction 1 "2024-01-05")
  = @TransactionList.monthKeyOf utc (TransactionList.exampleTransaction 2 "2024-01-20")
  <-> 2024 = 2024 /\ 1 = 1.
Proof.
  apply (@same_group_iff_same_month utc
           (TransactionList.exampleTransaction 1 "2024-01-05")
           (TransactionList.exampleTransaction 2 "2024-01-20")
           2024 1 5 2024 1 20).
  - intros s t H. exact H.
  - intros t. simpl. unfold JsDate.msPerDay. lia.
  - repeat split; (lia || by vm_compute).
  - repeat split; (lia || by vm_compute).
  - reflexivity.
  - reflexivity.
Defined.

(** ** What the transaction list shows *)

Section ListView.
Import JsDate TransactionList.
Context {host : Host}.

Lemma formatDate_valid (t : Transaction.t) :
  validDate t -> exists s, formatDate (Transaction.date t) = Return s.
Proof.
  unfold validDate, formatDate. intros [v ->]. simpl. eauto.
Qed.

(** The rows of a month: one per transaction, in order, and a divider
    after each index below [len - 1]. *)
Lemma rows_Return (accounts : list Account.t) (len : nat)
  (ts : list Transaction.t) : forall index,
  Forall validDate ts ->
  exists rs,
    rows accounts len index ts = Return rs /\
    map key rs = map Transaction.id ts /\
    map divider rs
    = map (fun j => Z.of_nat j <? Z.of_nat len - 1) (seq index (length ts)).
Proof.
  induction ts as [| t ts IH]; intros index Hv; [by exists [] |].
  apply Forall_cons in Hv as [Ht Hts].
  destruct (formatDate_valid t Ht) as [s Hs].
  destruct (IH (S index) Hts) as (rs & Hrs & Hkeys & Hdiv).
  eexists. cbn [rows]. unfold row. rewrite Hs. cbn [mbind completion_bind mret completion_ret].
  rewrite Hrs. cbn [mbind completion_bind mret completion_ret].
  split; [reflexivity |]. cbn [map key divider length seq].
  by rewrite Hkeys, Hdiv.
Qed.

Lemma dividers (n : nat) :
  map (fun j => Z.of_nat j <? Z.of_nat (S n) - 1) (seq 0 (S n))
  = replicate n true ++ [false].
Proof.
  assert (H : forall k i, (i + k = n)%nat ->
            map (fun j => Z.of_nat j <? Z.of_nat (S n) - 1) (seq i (S k))
            = replicate k true ++ [false]).
  { induction k as [| k IH]; intros i Hi.
    - cbn [seq map replicate app]. destruct (Z.ltb_spec (Z.of_nat i) (Z.of_nat (S n) - 1)); [lia | done].
    - change (seq i (S (S k))) with (i :: seq (S i) (S k)).
      cbn [map replicate app]. rewrite IH by lia.
      destruct (Z.ltb_spec (Z.of_nat i) (Z.of_nat (S n) - 1)); [done | lia]. }
  by apply H.
Qed.

Lemma sections_Return (accounts : list Account.t) (grouped : Grouped) :
  Forall (fun g => Forall validDate (snd g) /\ snd g <> []) grouped ->
  exists ss,
    sections accounts grouped = Return ss /\
    map fst ss = map (fun g => heading (fst g)) grouped /\
    Forall2 (fun g s => map key (snd s) = map Transaction.id (snd g)) grouped ss /\
    Forall (fun s => exists n, map divider (snd s) = replicate n true ++ [false]) ss.
Proof.
  induction 1 as [| [k ts] rest [Hts Hne] _ (ss & Hss & Hh & Hk & Hd)];
    [by exists [] |].
  simpl in Hts, Hne.
  destruct (rows_Return accounts (length ts) ts 0%nat Hts) as (rs & Hrs & Hkeys & Hdiv).
  eexists. cbn [sections]. rewrite Hrs. cbn [mbind completion_bind mret completion_ret].
  rewrite Hss. cbn [mbind completion_bind mret completion_ret].
  split; [reflexivity |]. cbn [map fst snd]. rewrite Hh.
  split; [done |]. split; [by constructor |].
  constructor; [| done]. simpl.
  destruct ts as [| t ts]; [done |]. exists (length ts).
  rewrite Hdiv. apply dividers.
Qed.

Lemma groups_valid (transactions : list Transaction.t) (grouped : Grouped) :
  groupTransactionsByMonth transactions = Return grouped ->
  Forall (fun g => Forall validDate (snd g) /\ snd g <> []) grouped.
Proof.
  intros Hg.
  pose proof (groupTransactionsByMonth_Return_valid _ _ Hg) as Hv.
  destruct (grouped_nonempty _ _ Hg) as (Hne & _ & _).
  destruct (grouped_invariants _ Hv)
    as (g' & Hg' & _ & _ & Hl).
  rewrite Hg in Hg'. injection Hg' as <-.
  unfold labelled in Hl. rewrite Forall_forall in Hl, Hne.
  apply Forall_forall. intros g Hin. split; [| by apply Hne].
  eapply Forall_impl; [exact (Hl g Hin) |]. intros t Ht.
  exact (monthKeyOf_Return t _ Ht).
Qed.

(** The three views and the escaping exception. *)
Lemma render_outcome (transactions : list Transaction.t)
  (accounts : list Account.t) :
  render transactions accounts true = Return Spinner /\
  render [] accounts false = Return EmptyState /\
  match transactions with
  | [] => True
  | _ :: _ =>
      (Forall validDate transactions /\
       exists ss, render transactions accounts false = Return (Months ss)) \/
      (Exists (fun t => ~ validDate t) transactions /\
       render transactions accounts false
       = Throw (RangeError "Invalid time value"))
  end.
Proof.
  split; [done |]. split; [done |].
  destruct transactions as [| t ts]; [done |].
  unfold render. cbn [length Nat.eqb].
  destruct (grouped_or_RangeError (t :: ts))
    as [[Hv [grouped Hg]] | [Hex Hthrow]].
  - left. split; [done |]. rewrite Hg. cbn [mbind completion_bind].
    destruct (sections_Return accounts grouped (groups_valid _ _ Hg))
      as (ss & Hss & _).
    rewrite Hss. simpl. eauto.
  - right. split; [done |]. by rewrite Hthrow.
Qed.

(** The list shows the spinner while loading, whatever it holds; the
    empty-state text for no transactions; and otherwise either the months,
    when every date is valid, or nothing at all: the [RangeError] of one
    invalid date escapes the render. *)
Theorem render_cases (transactions : list Transaction.t)
  (accounts : list Account.t) :
  render transactions accounts true = Return Spinner /\
  render [] accounts false = Return EmptyState /\
  match transactions with
  | [] => True
  | _ :: _ =>
      (Forall validDate transactions /\
       exists ss, render transactions accounts false = Return (Months ss)) \/
      (Exists (fun t => ~ validDate t) transactions /\
       render transactions accounts false
       = Throw (RangeError "Invalid time value"))
  end.
Proof.
  split; [done |]. split; [done |].
  destruct transactions as [| t ts]; [done |].
  unfold render. cbn [length Nat.eqb].
  destruct (grouped_or_RangeError (t :: ts))
    as [[Hv [grouped Hg]] | [Hex Hthrow]].
  - left. split; [done |]. rewrite Hg. cbn [mbind completion_bind].
    destruct (sections_Return accounts grouped (groups_valid _ _ Hg))
      as (ss & Hss & _).
    rewrite Hss. simpl. eauto.
  - right. split; [done |]. by rewrite Hthrow.
Qed.

(** When the months are shown, there is one section per group with the
    capitalised label as its heading, one row per transaction of the
    group in the group's order, hence as many rows as transactions; and
    in every section each row but the last is followed by a divider. *)
Theorem render_rows (transactions : list Transaction.t)
  (accounts : list Account.t) (ss : list (string * list Row)) :
  render transactions accounts false = Return (Months ss) ->
  exists grouped,
    groupTransactionsByMonth transactions = Return grouped /\
    map fst ss = map (fun g => heading (fst g)) grouped /\
    Forall2 (fun g s => map key (snd s) = map Transaction.id (snd g)) grouped ss /\
    Forall (fun s => exists n, map divider (snd s) = replicate n true ++ [false]) ss /\
    length (concat (map snd ss)) = length transactions.
Proof.
  intros Hr. destruct transactions as [| t ts]; [discriminate |].
  destruct (render_outcome (t :: ts) accounts) as (_ & _ & [[Hv _] | [_ Hthrow]]);
    [| by rewrite Hthrow in Hr].
  destruct (grouped_invariants _ Hv)
    as (grouped & Hg & Hperm & _ & _).
  destruct (sections_Return accounts grouped (groups_valid _ _ Hg))
    as (ss' & Hss & Hh & Hk & Hd).
  unfold render in Hr. cbn [length Nat.eqb] in Hr.
  rewrite Hg in Hr. cbn [mbind completion_bind] in Hr. rewrite Hss in Hr.
  injection Hr as <-.
  exists grouped. repeat (split; [done |]).
  rewrite <- (Permutation_length Hperm).
  clear - Hk. induction Hk as [| g s gs ss' Hgs _ IH]; [done |].
  cbn [map concat]. rewrite !length_app, IH. f_equal.
  by rewrite <- (length_map key), Hgs, length_map.
Qed.

End ListView.

Lemma render_rows_example :
  exists grouped,
    @TransactionList.groupTransactionsByMonth utc
      [TransactionList.exampleTransaction 1 "2024-01-05";
       TransactionList.exampleTransaction 2 "2024-01-20"]
    = Return grouped /\
    ["Janeiro 2024"] = map (fun g => TransactionList.heading (fst g)) grouped /\
    Forall2 (fun g s => map TransactionList.key (snd s)
                        = map Transaction.id (snd g))
      grouped
      [("Janeiro 2024",
        [TransactionList.mkRow 2 false "Compra" "-" 10 "Mercado" "Carteira"
           "20/01/2024" true;
         TransactionList.mkRow 1 false "Compra" "-" 10 "Mercado" "Carteira"
           "05/01/2024" false])] /\
    Forall (fun s => exists n, map TransactionList.divider (snd s)
                               = replicate n true ++ [false])
      [("Janeiro 2024",
        [TransactionList.mkRow 2 false "Compra" "-" 10 "Mercado" "Carteira"
           "20/01/2024" true;
         TransactionList.mkRow 1 false "Compra" "-" 10 "Mercado" "Carteira"
           "05/01/2024" false])] /\
    2%nat = 2%nat.
Proof.
  apply (@render_rows utc
           [TransactionList.exampleTransaction 1 "2024-01-05";
            TransactionList.exampleTransaction 2 "2024-01-20"]
           [Account.mk 1 "Carteira" 250]
           [("Janeiro 2024",
             [TransactionList.mkRow 2 false "Compra" "-" 10 "Mercado" "Carteira"
                "20/01/2024" true;
              TransactionList.mkRow 1 false "Compra" "-" 10 "Mercado" "Carteira"
                "05/01/2024" false])]).
  reflexivity.
Defined.

(** Of two accounts with the same id, the first one gives the name. *)
Lemma getAccountName_known_example :
  TransactionList.getAccountName
    [Account.mk 1 "Carteira" 250; Account.mk 2 "Banco" 1200;
     Account.mk 2 "Poupança" 10]
    2
  = "Banco".
Proof.
  apply (getAccountName_known
           [Account.mk 1 "Carteira" 250; Account.mk 2 "Banco" 1200;
            Account.mk 2 "Poupança" 10]
           (Account.mk 2 "Banco" 1200)
           [Account.mk 1 "Carteira" 250] [Account.mk 2 "Poupança" 10]).
  - reflexivity.
  - intros a Ha. apply list_elem_of_singleton in Ha as ->. discriminate.
Defined.
